(** * Weather.py: fetch-with-retry and field extraction

    A shallow embedding of [src/Weather.py].  Python values are an
    inductive type of JSON-shaped objects, dictionaries are finite maps
    with string keys, exceptions are an explicit result type, and
    printing, sleeping and HTTP requests are recorded in a [World] that
    the functions thread through. *)

From Stdlib Require Import ZArith QArith List Ascii String Lia.
From stdpp Require Import base option list gmap strings pretty.

Open Scope string_scope.
Open Scope list_scope.
Open Scope Z_scope.

(** ** Python values *)

(** A Python [float]: a finite value, carried as the rational it denotes,
    or one of the IEEE specials that [json] accepts as [NaN] and
    [Infinity].  The program stores floats, tests them for zero,
    multiplies one by a power of two and rounds one to whole seconds;
    the model does the same on the rationals. *)
Inductive pyfloat :=
| FFinite (q : Q)
| FInf (negative : bool)
| FNaN.

(** The objects that [response.json()] can build, plus [None].  [PNone] is
    both JSON's [null] and the value a Python function returns when it
    falls off its end. *)
#[warnings="-register-all"]
Inductive pyval :=
| PNone
| PBool (b : bool)
| PInt (z : Z)
| PFloat (f : pyfloat)
| PStr (s : string)
| PList (items : list pyval)
| PDict (entries : gmap string pyval).

Abbreviation Dict := (gmap string pyval).

(** [type(v).__name__], as the interpreter prints it in error messages. *)
Definition type_name (v : pyval) : string :=
  match v with
  | PNone => "NoneType"
  | PBool _ => "bool"
  | PInt _ => "int"
  | PFloat _ => "float"
  | PStr _ => "str"
  | PList _ => "list"
  | PDict _ => "dict"
  end.

(** Truth value testing, as [if v:] does it. *)
Definition float_truthy (f : pyfloat) : bool :=
  match f with
  | FFinite q => negb (Qnum q =? 0)
  | FInf _ => true
  | FNaN => true
  end.

Definition truthy (v : pyval) : bool :=
  match v with
  | PNone => false
  | PBool b => b
  | PInt z => negb (z =? 0)
  | PFloat f => float_truthy f
  | PStr s => negb (String.eqb s "")
  | PList items => match items with [] => false | _ :: _ => true end
  | PDict entries => match map_to_list entries with [] => false | _ :: _ => true end
  end.

Definition is_not_None (v : pyval) : bool :=
  match v with PNone => false | _ => true end.

(** ** Exceptions *)

(** The exception classes that the modelled operations raise.  The
    [requests] classes [Timeout] and [ConnectionError] derive from
    [RequestException]; [OtherRequestException] stands for its remaining
    subclasses and for the base class itself. *)
Inductive exn_class :=
| IndexError
| KeyError
| TypeError
| AttributeError
| ValueError
| OverflowError
| Timeout
| ConnectionError
| OtherRequestException
| KeyboardInterrupt.

Record exn := Exn { exn_cls : exn_class; exn_str : string }.

(** [isinstance(e, requests.RequestException)]. *)
Definition is_RequestException (c : exn_class) : bool :=
  match c with
  | Timeout | ConnectionError | OtherRequestException => true
  | _ => false
  end.

(** [isinstance(e, Exception)]: everything but [KeyboardInterrupt], which
    derives from [BaseException] directly. *)
Definition is_Exception (c : exn_class) : bool :=
  match c with
  | KeyboardInterrupt => false
  | _ => true
  end.

(** The outcome of evaluating an expression: a value or a raised
    exception. *)
Inductive result (A : Type) :=
| Ret (a : A)
| Raise (e : exn).
Arguments Ret {A} a.
Arguments Raise {A} e.

Definition rbind {A B} (r : result A) (k : A → result B) : result B :=
  match r with
  | Ret a => k a
  | Raise e => Raise e
  end.

(** ** Operations on Python values *)

(** [o.get(key, default)]: defined on dictionaries only. *)
Definition py_get (o : pyval) (key : string) (dflt : pyval) : result pyval :=
  match o with
  | PDict entries => Ret (default dflt (entries !! key))
  | _ => Raise (Exn AttributeError
                  ("'" +:+ type_name o +:+ "' object has no attribute 'get'"))
  end.

(** Indexing a sequence of length [len] with a Python integer: a negative
    index counts from the end, and an index outside [-len .. len-1] is not
    an offset at all. *)
Definition normalize_index (len i : Z) : option nat :=
  let j := if i <? 0 then i + len else i in
  if (0 <=? j) && (j <? len) then Some (Z.to_nat j) else None.

Definition list_getitem {A} (l : list A) (i : Z) : result A :=
  match normalize_index (Z.of_nat (length l)) i ≫= (l !!.) with
  | Some a => Ret a
  | None => Raise (Exn IndexError "list index out of range")
  end.

Definition str_getitem (s : string) (i : Z) : result string :=
  match normalize_index (Z.of_nat (String.length s)) i ≫= (λ n, String.get n s) with
  | Some c => Ret (String c "")
  | None => Raise (Exn IndexError "string index out of range")
  end.

(** [o[i]] for an integer [i].  A JSON object has string keys only, so an
    integer subscript of a dictionary is always a missing key. *)
Definition py_getitem (o : pyval) (i : Z) : result pyval :=
  match o with
  | PList items => list_getitem items i
  | PStr s => rbind (str_getitem s i) (λ c, Ret (PStr c))
  | PDict _ => Raise (Exn KeyError (pretty i))
  | _ => Raise (Exn TypeError
                  ("'" +:+ type_name o +:+ "' object is not subscriptable"))
  end.

(** ** Calendar arithmetic of [datetime] *)

Module Calendar.

(** The proleptic Gregorian calendar as [datetime] computes it
    ([_is_leap], [_days_before_year], [_ord2ymd], [_ymd2ord]); day
    ordinal 1 is 0001-01-01. *)

Definition DI400Y : Z := 146097.
Definition DI100Y : Z := 36524.
Definition DI4Y : Z := 1461.

Definition is_leap (year : Z) : bool :=
  (year mod 4 =? 0) && (negb (year mod 100 =? 0) || (year mod 400 =? 0)).

Definition days_before_year (year : Z) : Z :=
  let y := year - 1 in
  y * 365 + y / 4 - y / 100 + y / 400.

Definition DAYS_IN_MONTH (month : Z) : Z :=
  match month with
  | 1 => 31 | 2 => 28 | 3 => 31 | 4 => 30 | 5 => 31 | 6 => 30
  | 7 => 31 | 8 => 31 | 9 => 30 | 10 => 31 | 11 => 30 | 12 => 31
  | _ => -1
  end.

Definition DAYS_BEFORE_MONTH (month : Z) : Z :=
  match month with
  | 1 => 0 | 2 => 31 | 3 => 59 | 4 => 90 | 5 => 120 | 6 => 151
  | 7 => 181 | 8 => 212 | 9 => 243 | 10 => 273 | 11 => 304 | 12 => 334
  | _ => -1
  end.

Definition days_in_month (year month : Z) : Z :=
  if (month =? 2) && is_leap year then 29 else DAYS_IN_MONTH month.

Definition days_before_month (year month : Z) : Z :=
  DAYS_BEFORE_MONTH month + Z.b2z ((2 <? month) && is_leap year).

Definition ymd2ord (year month day : Z) : Z :=
  days_before_year year + days_before_month year month + day.

Definition ord2ymd (ordinal : Z) : Z * Z * Z :=
  let n := ordinal - 1 in
  let n400 := n / DI400Y in
  let n := n mod DI400Y in
  let year := n400 * 400 + 1 in
  let n100 := n / DI100Y in
  let n := n mod DI100Y in
  let n4 := n / DI4Y in
  let n := n mod DI4Y in
  let n1 := n / 365 in
  let n := n mod 365 in
  let year := year + n100 * 100 + n4 * 4 + n1 in
  if (n1 =? 4) || (n100 =? 4) then (year - 1, 12, 31)
  else
    let leapyear := (n1 =? 3) && (negb (n4 =? 24) || (n100 =? 3)) in
    let month := Z.shiftr (n + 50) 5 in
    let preceding := DAYS_BEFORE_MONTH month + Z.b2z ((2 <? month) && leapyear) in
    if n <? preceding then
      let month := month - 1 in
      let preceding :=
        preceding - (DAYS_IN_MONTH month + Z.b2z ((month =? 2) && leapyear)) in
      (year, month, n - preceding + 1)
    else (year, month, n - preceding + 1).

(** A broken-down UTC time, the fields that [strftime] prints. *)
Record datetime := DateTime {
  year : Z; month : Z; day : Z; hour : Z; minute : Z; second : Z
}.

(** Day ordinal of 1970-01-01. *)
Definition EPOCH_ORDINAL : Z := 719163.

(** Whole seconds since the epoch to broken-down UTC time. *)
Definition gmtime (t : Z) : datetime :=
  let days := t / 86400 in
  let secs := t mod 86400 in
  let '(y, m, d) := ord2ymd (EPOCH_ORDINAL + days) in
  DateTime y m d (secs / 3600) (secs mod 3600 / 60) (secs mod 60).

(** The inverse direction ([calendar.timegm]). *)
Definition timegm (dt : datetime) : Z :=
  (ymd2ord (year dt) (month dt) (day dt) - EPOCH_ORDINAL) * 86400
  + hour dt * 3600 + minute dt * 60 + second dt.

Definition MINYEAR : Z := 1.
Definition MAXYEAR : Z := 9999.

(** The timestamps whose year lies in [MINYEAR .. MAXYEAR]:
    0001-01-01 00:00:00 up to 9999-12-31 23:59:59. *)
Definition MIN_TIMESTAMP : Z := -62135596800.
Definition MAX_TIMESTAMP : Z := 253402300799.

Definition digit (d : Z) : ascii := ascii_of_nat (Z.to_nat (48 + d)).

(** [%02d] and [%04d] on values that have at most that many digits. *)
Definition zero_pad2 (n : Z) : string :=
  String (digit (n / 10)) (String (digit (n mod 10)) "").

Definition zero_pad4 (n : Z) : string :=
  String (digit (n / 1000)) (String (digit (n / 100 mod 10)) (zero_pad2 (n mod 100))).

(** [dt.strftime("%Y-%m-%d %H:%M:%S")].  The C library decides how [%Y]
    prints a year below 1000; here it is padded to four digits like the
    years from 1000 on. *)
Definition strftime (dt : datetime) : string :=
  zero_pad4 (year dt) +:+ "-" +:+ zero_pad2 (month dt) +:+ "-" +:+ zero_pad2 (day dt)
  +:+ " " +:+ zero_pad2 (hour dt) +:+ ":" +:+ zero_pad2 (minute dt) +:+ ":"
  +:+ zero_pad2 (second dt).

End Calendar.

(** Rounding a rational to the nearest integer, ties to even. *)
Definition round_half_even (q : Q) : Z :=
  let n := Qnum q in
  let d := Zpos (Qden q) in
  let fl := n / d in
  let r := n mod d in
  if 2 * r <? d then fl
  else if d <? 2 * r then fl + 1
  else if Z.even fl then fl else fl + 1.

(** The whole seconds that [datetime.utcfromtimestamp] keeps of its
    argument.  A [float] is rounded to microseconds (half to even) before
    it is split; [bool] is a subclass of [int]. *)
Definition timestamp_seconds (v : pyval) : result Z :=
  match v with
  | PInt t => Ret t
  | PBool b => Ret (Z.b2z b)
  | PFloat (FFinite q) => Ret (round_half_even (q * 1000000) / 1000000)
  | PFloat FNaN => Raise (Exn ValueError "Invalid value NaN (not a number)")
  | PFloat (FInf _) => Raise (Exn OverflowError "cannot convert float infinity to integer")
  | _ => Raise (Exn TypeError
                 ("'" +:+ type_name v +:+ "' object cannot be interpreted as an integer"))
  end.

(** [datetime.utcfromtimestamp(v)]: the year must lie in
    [MINYEAR .. MAXYEAR].  Outside of it the interpreter raises
    [ValueError], [OverflowError] or [OSError] according to how far
    outside; all three derive from [Exception], and the one class here
    stands for them. *)
Definition utcfromtimestamp (v : pyval) : result Calendar.datetime :=
  rbind (timestamp_seconds v) (λ t,
    if (Calendar.MIN_TIMESTAMP <=? t) && (t <=? Calendar.MAX_TIMESTAMP)
    then Ret (Calendar.gmtime t)
    else Raise (Exn ValueError "year is out of range")).

(** ** The world outside the program *)

(** What [requests.get(url, params=..., timeout=...)] is called with. *)
Record request := Request {
  req_url : string;
  req_params : list (string * string);
  req_timeout : Z
}.

(** What [requests.get] returns: the status code, the body, and the
    outcome of calling [.json()] on it. *)
Record response := Response {
  status_code : Z;
  text : string;
  json : result pyval
}.

(** What the program does to the world, in the order it does it. *)
Inductive event :=
| Requested (r : request)
| Slept (seconds : Q)
| Printed (line : string).

(** The servers and the network are an oracle: the outcome of a request
    depends on the request and on how many were made before it.  [trace]
    is what the program has done so far; [environ] is the process
    environment and [dotenv_file] the bindings of the [.env] file. *)
Record World := mkWorld {
  network : nat → request → result response;
  trace : list event;
  environ : gmap string string;
  dotenv_file : gmap string string
}.

Definition emits (evs : list event) (w : World) : World :=
  mkWorld (network w) (trace w ++ evs) (environ w) (dotenv_file w).

Definition emit (ev : event) (w : World) : World := emits [ev] w.

(** The requests sent, the durations slept (in seconds) and the lines
    printed, each in order. *)
Definition requests_of (evs : list event) : list request :=
  omap (λ ev, match ev with Requested r => Some r | _ => None end) evs.

Definition sleeps_of (evs : list event) : list Q :=
  omap (λ ev, match ev with Slept q => Some q | _ => None end) evs.

Definition stdout_of (evs : list event) : list string :=
  omap (λ ev, match ev with Printed line => Some line | _ => None end) evs.

Definition requests (w : World) : list request := requests_of (trace w).
Definition sleeps (w : World) : list Q := sleeps_of (trace w).
Definition stdout (w : World) : list string := stdout_of (trace w).

(** Computations that read and change the world and may raise. *)
Definition M (A : Type) : Type := World → result A * World.

Definition ret {A} (a : A) : M A := λ w, (Ret a, w).

Definition raise {A} (e : exn) : M A := λ w, (Raise e, w).

Definition bind {A B} (m : M A) (k : A → M B) : M B :=
  λ w, match m w with
       | (Ret a, w') => k a w'
       | (Raise e, w') => (Raise e, w')
       end.

Definition lift {A} (r : result A) : M A := λ w, (r, w).

(** [try: m  except <classes matching handles> as e: handler e]. *)
Definition try_except {A} (m : M A) (handles : exn_class → bool) (handler : exn → M A) : M A :=
  λ w, match m w with
       | (Ret a, w') => (Ret a, w')
       | (Raise e, w') => if handles (exn_cls e) then handler e w' else (Raise e, w')
       end.

#[global] Instance M_ret : MRet M := @ret.
#[global] Instance M_bind : MBind M := λ A B k m, bind m k.

Definition print (line : string) : M unit :=
  λ w, (Ret tt, emit (Printed line) w).

(** [time.sleep(seconds)]: a negative duration is refused, any other is
    slept and recorded. *)
Definition time_sleep (seconds : Q) : M unit :=
  λ w, if Qle_bool 0 seconds then (Ret tt, emit (Slept seconds) w)
       else (Raise (Exn ValueError "sleep length must be non-negative"), w).

(** [requests.get(url, params=params, timeout=timeout)]. *)
Definition requests_get (url : string) (params : list (string * string)) (timeout : Z)
  : M response :=
  λ w, let r := Request url params timeout in
       (network w (length (requests w)) r, emit (Requested r) w).

(** [load_dotenv()]: the bindings of the [.env] file are added to the
    environment; a variable that is already set keeps its value. *)
Definition load_dotenv : M unit :=
  λ w, (Ret tt, mkWorld (network w) (trace w) (environ w ∪ dotenv_file w) (dotenv_file w)).

(** [os.getenv(name)]. *)
Definition os_getenv (name : string) : M (option string) :=
  λ w, (Ret (environ w !! name), w).

(** [for x in xs: body x], where the body either falls through to the next
    iteration ([None]) or returns from the enclosing function
    ([Some v]). *)
Fixpoint for_each {A R} (xs : list A) (body : A → M (option R)) : M (option R) :=
  match xs with
  | [] => mret None
  | x :: rest =>
      r ← body x;
      match r with
      | Some v => mret (Some v)
      | None => for_each rest body
      end
  end.

(** [range(n)]: empty when [n <= 0]. *)
Definition range (n : Z) : list Z := Z.of_nat <$> seq 0 (Z.to_nat n).

(** ** [fetch_raw_weather_data_for_city] *)

Definition WEATHER_URL : string := "https://api.openweathermap.org/data/2.5/weather".

Definition weather_params (city api_key : string) : list (string * string) :=
  [("q", city); ("appid", api_key); ("units", "metric")].

Definition city_not_found_message (city : string) : string :=
  "City '" +:+ city +:+ "' not found. Skipping.".

Definition invalid_api_key_message : string :=
  "Invalid API key. Please check your .env file.".

Definition unexpected_status_message (city : string) (r : response) : string :=
  "Unexpected status code " +:+ pretty (status_code r) +:+ " for city '" +:+ city
  +:+ "'. Response: " +:+ text r.

(** [print("Threw an Execption ", str(e))]: the two arguments are joined
    by a space. *)
Definition request_exception_message (e : exn) : string :=
  "Threw an Execption  " +:+ exn_str e.

Definition fetch_failed_message (city : string) (retries : Z) : string :=
  "Failed to fetch data for city '" +:+ city +:+ "' after " +:+ pretty retries
  +:+ " attempts.".

(** The [try] statement of the loop body.  [Some v] is [return v]; [None]
    is falling out of the statement, which happens only through the first
    [except] clause: it names [requests.RequestException], the base class
    of [Timeout] and [ConnectionError], so the three clauses after it never
    run. *)
Definition fetch_attempt (city : string) (url : string) (params : list (string * string))
  : M (option pyval) :=
  try_except
    (response ← requests_get url params 5;
     if status_code response =? 200 then
       data ← lift (json response);
       mret (Some data)
     else if status_code response =? 404 then
       print (city_not_found_message city);;
       mret (Some PNone)
     else if status_code response =? 401 then
       print invalid_api_key_message;;
       mret (Some PNone)
     else
       print (unexpected_status_message city response);;
       mret (Some PNone))
    is_RequestException
    (λ e, print (request_exception_message e);; mret None).

(** The duration of the sleep after attempt [attempt]:
    [backoff_factor * (2**attempt)]. *)
Definition backoff (backoff_factor : Q) (attempt : Z) : Q :=
  backoff_factor * inject_Z (2 ^ attempt).

(** The body of the [for] loop: the [try] statement, and the sleep that
    follows it when the statement did not return. *)
Definition fetch_iteration (city url : string) (params : list (string * string))
    (backoff_factor : Q) (attempt : Z) : M (option pyval) :=
  r ← fetch_attempt city url params;
  match r with
  | Some v => mret (Some v)
  | None => time_sleep (backoff backoff_factor attempt);; mret None
  end.

Definition fetch_raw_weather_data_for_city
    (city api_key : string) (retries : Z) (backoff_factor : Q) : M pyval :=
  let url := WEATHER_URL in
  let params := weather_params city api_key in
  returned ← for_each (range retries) (fetch_iteration city url params backoff_factor);
  match returned with
  | Some v => mret v
  | None => print (fetch_failed_message city retries);; mret PNone
  end.

(** The defaults of the signature: [retries=3, backoff_factor=0.3]. *)
Definition DEFAULT_RETRIES : Z := 3.
Definition DEFAULT_BACKOFF_FACTOR : Q := 3 # 10.

(** ** [extract_required_fields] *)

#[global] Instance result_ret : MRet result := @Ret.
#[global] Instance result_bind : MBind result := λ A B k r, rbind r k.

(** [item.get(outer, {}).get(inner)]. *)
Definition get_nested (item : pyval) (outer inner : string) : result pyval :=
  o ← py_get item outer (PDict ∅);
  py_get o inner PNone.

(** [item.get(outer, [{}])[0].get(inner)]. *)
Definition get_nested_first (item : pyval) (outer inner : string) : result pyval :=
  o ← py_get item outer (PList [PDict ∅]);
  first ← py_getitem o 0;
  py_get first inner PNone.

(** The nine values that the [try] block computes before it looks at
    them, in the order of the source. *)
Record fields := Fields {
  f_city : pyval;
  f_country : pyval;
  f_temp_celsius : pyval;
  f_feels_like_celsius : pyval;
  f_weather_main : pyval;
  f_weather_desc : pyval;
  f_humidity : pyval;
  f_wind_speed : pyval;
  f_timestamp_str : string
}.

Definition read_fields (data : list pyval) (city_idx : Z) : result fields :=
  item ← list_getitem data city_idx;
  city ← py_get item "name" PNone;
  country ← get_nested item "sys" "country";
  temp_celsius ← get_nested item "main" "temp";
  feels_like_celsius ← get_nested item "main" "feels_like";
  weather_main ← get_nested_first item "weather" "main";
  weather_desc ← get_nested_first item "weather" "description";
  humidity ← get_nested item "main" "humidity";
  wind_speed ← get_nested item "wind" "speed";
  timestamp_utc ← py_get item "dt" PNone;
  dt ← utcfromtimestamp timestamp_utc;
  mret (Fields city country temp_celsius feels_like_celsius weather_main
               weather_desc humidity wind_speed (Calendar.strftime dt)).

(** The dictionary literal of the [return] statement. *)
Definition record_of (f : fields) : Dict :=
  list_to_map [
    ("city", f_city f);
    ("country", f_country f);
    ("temp_celsius", f_temp_celsius f);
    ("feels_like_celsius", f_feels_like_celsius f);
    ("weather_main", f_weather_main f);
    ("weather_desc", f_weather_desc f);
    ("humidity", f_humidity f);
    ("wind_speed", f_wind_speed f);
    ("timestamp_utc", PStr (f_timestamp_str f))
  ].

(** [if city and country and temp_celsius is not None]. *)
Definition essential_present (f : fields) : bool :=
  truthy (f_city f) && truthy (f_country f) && is_not_None (f_temp_celsius f).

Definition missing_essential_message (city_idx : Z) : string :=
  "Missing essential data for index " +:+ pretty city_idx
  +:+ ". Skipping printing that is why".

Definition extraction_failed_message (e : exn) : string :=
  "Couldn't extract the required fields -  " +:+ exn_str e.

Definition extract_required_fields (data : list pyval) (city_idx : Z) : M pyval :=
  try_except
    (f ← lift (read_fields data city_idx);
     if essential_present f then
       mret (PDict (record_of f))
     else
       print (missing_essential_message city_idx);;
       mret PNone)
    is_Exception
    (λ e, print (extraction_failed_message e);; mret PNone).

(** ** [extract_required_fields] on objects in memory *)

(** The embedding above passes observations by value.  Python passes
    references: [data] is a list object that holds references to dictionary
    objects, [{}] and [[{}]] allocate, and the record that is returned may
    share objects with the observation.  This second embedding of
    [extract_required_fields] keeps lists and dictionaries in a store, so
    that what the function does to the objects it is given can be
    stated. *)
Module Heap.

Definition loc := positive.

(** A value is a scalar or a reference to a list or dictionary object. *)
Inductive val :=
| VNone
| VBool (b : bool)
| VInt (z : Z)
| VFloat (f : pyfloat)
| VStr (s : string)
| VRef (l : loc).
Arguments VRef l%_positive.

Inductive obj :=
| OList (items : list val)
| ODict (entries : gmap string val).

Record state := State {
  objects : gmap loc obj;
  printed : list string
}.

Definition type_name (h : gmap loc obj) (v : val) : string :=
  match v with
  | VNone => "NoneType"
  | VBool _ => "bool"
  | VInt _ => "int"
  | VFloat _ => "float"
  | VStr _ => "str"
  | VRef l =>
      match h !! l with
      | Some (OList _) => "list"
      | Some (ODict _) => "dict"
      | None => "object"
      end
  end.

Definition truthy (h : gmap loc obj) (v : val) : bool :=
  match v with
  | VNone => false
  | VBool b => b
  | VInt z => negb (z =? 0)
  | VFloat f => float_truthy f
  | VStr s => negb (String.eqb s "")
  | VRef l =>
      match h !! l with
      | Some (OList items) => match items with [] => false | _ :: _ => true end
      | Some (ODict entries) =>
          match map_to_list entries with [] => false | _ :: _ => true end
      | None => true
      end
  end.

Definition is_not_None (v : val) : bool :=
  match v with VNone => false | _ => true end.

(** What [o.get] raises when [o] has no such method. *)
Definition no_attribute_get (h : gmap loc obj) (o : val) : exn :=
  Exn AttributeError ("'" +:+ type_name h o +:+ "' object has no attribute 'get'").

(** Evaluating [o.get], before any argument of the call: only a
    dictionary has the method. *)
Definition attr_get (h : gmap loc obj) (o : val) : result unit :=
  match o with
  | VRef l =>
      match h !! l with
      | Some (ODict _) => Ret tt
      | _ => Raise (no_attribute_get h o)
      end
  | _ => Raise (no_attribute_get h o)
  end.

(** [o.get(key, default)]. *)
Definition get (h : gmap loc obj) (o : val) (key : string) (dflt : val) : result val :=
  match o with
  | VRef l =>
      match h !! l with
      | Some (ODict entries) => Ret (default dflt (entries !! key))
      | _ => Raise (no_attribute_get h o)
      end
  | _ => Raise (no_attribute_get h o)
  end.

(** [o[i]] for an integer [i]. *)
Definition getitem (h : gmap loc obj) (o : val) (i : Z) : result val :=
  match o with
  | VStr s => rbind (str_getitem s i) (λ c, Ret (VStr c))
  | VRef l =>
      match h !! l with
      | Some (OList items) => list_getitem items i
      | Some (ODict _) => Raise (Exn KeyError (pretty i))
      | None => Raise (Exn TypeError
                         ("'" +:+ type_name h o +:+ "' object is not subscriptable"))
      end
  | _ => Raise (Exn TypeError
                  ("'" +:+ type_name h o +:+ "' object is not subscriptable"))
  end.

Definition timestamp_seconds (h : gmap loc obj) (v : val) : result Z :=
  match v with
  | VInt t => Ret t
  | VBool b => Ret (Z.b2z b)
  | VFloat (FFinite q) => Ret (round_half_even (q * 1000000) / 1000000)
  | VFloat FNaN => Raise (Exn ValueError "Invalid value NaN (not a number)")
  | VFloat (FInf _) => Raise (Exn OverflowError "cannot convert float infinity to integer")
  | _ => Raise (Exn TypeError
                 ("'" +:+ type_name h v +:+ "' object cannot be interpreted as an integer"))
  end.

Definition utcfromtimestamp (h : gmap loc obj) (v : val) : result Calendar.datetime :=
  rbind (timestamp_seconds h v) (λ t,
    if (Calendar.MIN_TIMESTAMP <=? t) && (t <=? Calendar.MAX_TIMESTAMP)
    then Ret (Calendar.gmtime t)
    else Raise (Exn ValueError "year is out of range")).

(** Computations on the store. *)
Definition H (A : Type) : Type := state → result A * state.

Definition ret {A} (a : A) : H A := λ st, (Ret a, st).

Definition bind {A B} (m : H A) (k : A → H B) : H B :=
  λ st, match m st with
        | (Ret a, st') => k a st'
        | (Raise e, st') => (Raise e, st')
        end.

#[global] Instance H_ret : MRet H := @ret.
#[global] Instance H_bind : MBind H := λ A B k m, bind m k.

Definition try_except {A} (m : H A) (handles : exn_class → bool) (handler : exn → H A)
  : H A :=
  λ st, match m st with
        | (Ret a, st') => (Ret a, st')
        | (Raise e, st') => if handles (exn_cls e) then handler e st' else (Raise e, st')
        end.

(** Evaluating an expression that only reads the store. *)
Definition read {A} (f : gmap loc obj → result A) : H A :=
  λ st, (f (objects st), st).

(** Creating an object: it gets a location that holds no object yet. *)
Definition alloc (o : obj) : H val :=
  λ st, let l := fresh (dom (objects st)) in
        (Ret (VRef l), State (<[l := o]> (objects st)) (printed st)).

Definition print (line : string) : H unit :=
  λ st, (Ret tt, State (objects st) (printed st ++ [line])).

(** [item.get(outer, {}).get(inner)]: the method is looked up, then the
    default is built, then the call is made. *)
Definition get_nested (item : val) (outer inner : string) : H val :=
  read (λ h, attr_get h item);;
  empty ← alloc (ODict ∅);
  o ← read (λ h, get h item outer empty);
  read (λ h, get h o inner VNone).

(** [item.get(outer, [{}])[0].get(inner)]. *)
Definition get_nested_first (item : val) (outer inner : string) : H val :=
  read (λ h, attr_get h item);;
  empty ← alloc (ODict ∅);
  singleton ← alloc (OList [empty]);
  o ← read (λ h, get h item outer singleton);
  first ← read (λ h, getitem h o 0);
  read (λ h, get h first inner VNone).

Definition extract_required_fields (data : val) (city_idx : Z) : H val :=
  try_except
    (item ← read (λ h, getitem h data city_idx);
     city ← read (λ h, get h item "name" VNone);
     country ← get_nested item "sys" "country";
     temp_celsius ← get_nested item "main" "temp";
     feels_like_celsius ← get_nested item "main" "feels_like";
     weather_main ← get_nested_first item "weather" "main";
     weather_desc ← get_nested_first item "weather" "description";
     humidity ← get_nested item "main" "humidity";
     wind_speed ← get_nested item "wind" "speed";
     timestamp_utc ← read (λ h, get h item "dt" VNone);
     dt ← read (λ h, utcfromtimestamp h timestamp_utc);
     let timestamp_str := Calendar.strftime dt in
     essential ← read (λ h, Ret (truthy h city && truthy h country
                                 && is_not_None temp_celsius));
     if essential : bool then
       alloc (ODict (list_to_map [
         ("city", city);
         ("country", country);
         ("temp_celsius", temp_celsius);
         ("feels_like_celsius", feels_like_celsius);
         ("weather_main", weather_main);
         ("weather_desc", weather_desc);
         ("humidity", humidity);
         ("wind_speed", wind_speed);
         ("timestamp_utc", VStr timestamp_str)]))
     else
       print (missing_essential_message city_idx);;
       mret VNone)
    is_Exception
    (λ e, print (extraction_failed_message e);; mret VNone).

End Heap.

(** ** [get_weather_data] *)

Fixpoint fetch_cities (cities : list string) (api_key : string) (results : list pyval)
  : M (list pyval) :=
  match cities with
  | [] => mret results
  | city :: rest =>
      data ← fetch_raw_weather_data_for_city city api_key
               DEFAULT_RETRIES DEFAULT_BACKOFF_FACTOR;
      fetch_cities rest api_key (if truthy data then results ++ [data] else results)
  end.

Definition API_KEY_MISSING_MESSAGE : string :=
  "API key not found, please add api key in your .env file".

Definition get_weather_data (cities : list string) : M (list pyval) :=
  load_dotenv;;
  api_key ← os_getenv "API_KEY";
  match api_key with
  | None | Some "" => print API_KEY_MISSING_MESSAGE;; mret []
  | Some key => fetch_cities cities key []
  end.

(** ** [main], up to the cleaned rows *)

(** [main] first fetches, prints and cleans; then it hands the cleaned rows
    to pandas and matplotlib.  This is the first part, lines 142 to 162 of
    the source, ending with the rows it has collected.  The two library
    printers are parameters: [json_dumps obj indent] is
    [json.dumps(obj, indent=indent)], and [pformat obj] is the text that
    [pprint(obj)] writes. *)
Section Main.

Variable json_dumps : pyval → Z → string.
Variable pformat : pyval → string.

Definition pprint (obj : pyval) : M unit := print (pformat obj).

Definition CITIES : list string := ["Seattle"; "Mumbai"; "Los Angeles"].

Definition SEPARATOR : string :=
  "===============================================================================================================================".

(** [for data in weather_data_list: print(json.dumps(data, indent=5))]. *)
Fixpoint print_raw (weather_data_list : list pyval) : M unit :=
  match weather_data_list with
  | [] => mret tt
  | data :: rest => print (json_dumps data 5);; print_raw rest
  end.

(** The loop over [enumerate(weather_data_list)], from position [index]
    on: [remaining] is what the iteration has not visited yet. *)
Fixpoint clean_from (weather_data_list : list pyval) (index : Z)
    (remaining : list pyval) (cleaned_data : list pyval) : M (list pyval) :=
  match remaining with
  | [] => mret cleaned_data
  | data :: rest =>
      row ← extract_required_fields weather_data_list index;
      if truthy row then
        pprint (PStr (json_dumps data 3));;
        clean_from weather_data_list (index + 1) rest (cleaned_data ++ [row])
      else
        clean_from weather_data_list (index + 1) rest cleaned_data
  end.

Definition clean (weather_data_list : list pyval) : M (list pyval) :=
  clean_from weather_data_list 0 weather_data_list [].

Definition main_cleaned_data : M (list pyval) :=
  let cities := CITIES in
  weather_data_list ← get_weather_data cities;
  print_raw weather_data_list;;
  print SEPARATOR;;
  cleaned_data ← clean weather_data_list;
  print SEPARATOR;;
  print "Cleaned Data:";;
  pprint (PList cleaned_data);;
  mret cleaned_data.

End Main.

(** * Vocabulary of the properties *)

(** ** Outcomes of an attempt *)

(** The request that every attempt for [city] sends. *)
Definition weather_request (city api_key : string) : request :=
  Request WEATHER_URL (weather_params city api_key) 5.

(** The outcomes after which the loop goes on to its next iteration: a
    [requests.RequestException] raised inside the [try] statement, by
    [requests.get] or by [response.json()]. *)
Definition raised_RequestException (o : result response) : bool :=
  match o with
  | Raise e => is_RequestException (exn_cls e)
  | Ret r =>
      (status_code r =? 200) &&
      match json r with
      | Raise e => is_RequestException (exn_cls e)
      | Ret _ => false
      end
  end.

(** What an attempt makes of the outcome of its request: the value the
    [try] statement yields, and what is printed after the request. *)
Definition http_error_message (city : string) (r : response) : string :=
  if status_code r =? 404 then city_not_found_message city
  else if status_code r =? 401 then invalid_api_key_message
  else unexpected_status_message city r.

Definition caught {A} (e : exn) : result (option A) * list event :=
  if is_RequestException (exn_cls e)
  then (Ret None, [Printed (request_exception_message e)])
  else (Raise e, []).

Definition attempt_outcome (city : string) (o : result response)
  : result (option pyval) * list event :=
  match o with
  | Raise e => caught e
  | Ret r =>
      if status_code r =? 200 then
        match json r with
        | Ret data => (Ret (Some data), [])
        | Raise e => caught e
        end
      else (Ret (Some PNone), [Printed (http_error_message city r)])
  end.

(** What a failed attempt leaves in the trace: the request, the line
    printed by the handler, and the backoff sleep. *)
Definition failed_attempt (r : request) (bf : Q) (failure : nat → exn) (i : nat)
  : list event :=
  [Requested r; Printed (request_exception_message (failure i));
   Slept (backoff bf (Z.of_nat i))].

(** An expression that raises instances of [Exception] only. *)
Definition raises_Exception {A} (r : result A) : Prop :=
  ∀ e, r = Raise e → is_Exception (exn_cls e) = true.

(** [extract_required_fields] returns a record, not [None]. *)
Definition returns_record (data : list pyval) (idx : Z) (w : World) : Prop :=
  ∃ rec : Dict, (extract_required_fields data idx w).1 = Ret (PDict rec).

(** The city name, the country and the temperature of an observation are
    present and not [null]. *)
Definition essentials_non_null (item : pyval) : Prop :=
  ∃ (entries sys main : Dict) (city country temp : pyval),
    item = PDict entries
    ∧ entries !! "name" = Some city
    ∧ entries !! "sys" = Some (PDict sys) ∧ sys !! "country" = Some country
    ∧ entries !! "main" = Some (PDict main) ∧ main !! "temp" = Some temp
    ∧ city ≠ PNone ∧ country ≠ PNone ∧ temp ≠ PNone.

(** The three essential values of a record are there and not [None]. *)
Definition record_has_essentials (rec : Dict) : Prop :=
  ∃ city country temp : pyval,
    rec !! "city" = Some city ∧ rec !! "country" = Some country
    ∧ rec !! "temp_celsius" = Some temp
    ∧ city ≠ PNone ∧ country ≠ PNone ∧ temp ≠ PNone.

(** ** The two embeddings *)

(** A value in the store denotes a value of the first embedding: a scalar
    denotes itself, a reference denotes the list or dictionary that its
    object holds, element by element. *)
#[warnings="-register-all"]
Inductive denotes (h : gmap Heap.loc Heap.obj) : Heap.val → pyval → Prop :=
| denotes_None : denotes h Heap.VNone PNone
| denotes_Bool b : denotes h (Heap.VBool b) (PBool b)
| denotes_Int z : denotes h (Heap.VInt z) (PInt z)
| denotes_Float f : denotes h (Heap.VFloat f) (PFloat f)
| denotes_Str s : denotes h (Heap.VStr s) (PStr s)
| denotes_List l items pitems :
    h !! l = Some (Heap.OList items) →
    Forall2 (denotes h) items pitems →
    denotes h (Heap.VRef l) (PList pitems)
| denotes_Dict l entries (pentries : Dict) :
    h !! l = Some (Heap.ODict entries) →
    (∀ k, entries !! k = None → pentries !! k = None) →
    (∀ k v, entries !! k = Some v → ∃ pv, pentries !! k = Some pv ∧ denotes h v pv) →
    denotes h (Heap.VRef l) (PDict pentries).

(** A computation on the store that leaves every object that exists as
    it is. *)
Definition preserves {A} (m : Heap.H A) : Prop :=
  ∀ st, Heap.objects st ⊆ Heap.objects (m st).2.

(** Two outcomes agree: the same exception, or values that are related. *)
Definition result_rel {A B} (R : A → B → Prop) (r1 : result A) (r2 : result B) : Prop :=
  match r1, r2 with
  | Ret a, Ret b => R a b
  | Raise e1, Raise e2 => e1 = e2
  | _, _ => False
  end.

(** A computation on the store simulates the evaluation of an expression
    of the first embedding: it ends in a store that extends the one it
    started in, prints nothing, and raises the same exception or returns a
    related value. *)
Definition simulates {A B} (R : gmap Heap.loc Heap.obj → A → B → Prop)
    (m : Heap.H A) (st : Heap.state) (r : result B) : Prop :=
  ∃ st', Heap.objects st ⊆ Heap.objects st'
         ∧ Heap.printed st' = Heap.printed st
         ∧ match r with
           | Ret b => ∃ a, m st = (Ret a, st') ∧ R (Heap.objects st') a b
           | Raise e => m st = (Raise e, st')
           end.

(** The same for the body of the [try] statement, which also decides
    between the record and the skip message. *)
Definition body_simulates (city_idx : Z) (m : Heap.H Heap.val) (st : Heap.state)
    (r : result fields) : Prop :=
  ∃ st', Heap.objects st ⊆ Heap.objects st'
         ∧ match r with
           | Raise e => m st = (Raise e, st') ∧ Heap.printed st' = Heap.printed st
           | Ret f =>
               if essential_present f then
                 ∃ l, m st = (Ret (Heap.VRef l), st')
                      ∧ Heap.printed st' = Heap.printed st
                      ∧ denotes (Heap.objects st') (Heap.VRef l) (PDict (record_of f))
               else
                 m st = (Ret Heap.VNone, st')
                 ∧ Heap.printed st' = Heap.printed st ++ [missing_essential_message city_idx]
           end.

(** ** Dates and times *)

Module CalendarSpec.
Import Calendar.
(** The fields of a date and time that exists. *)
Definition valid_datetime (dt : datetime) : Prop :=
  1 <= month dt <= 12 /\ 1 <= day dt <= days_in_month (year dt) (month dt)
  /\ 0 <= hour dt < 24 /\ 0 <= minute dt < 60 /\ 0 <= second dt < 60.

Definition is_digit (c : ascii) : bool :=
  let n := nat_of_ascii c in (48 <=? n)%nat && (n <=? 57)%nat.

Definition digit_value (c : ascii) : Z := Z.of_nat (nat_of_ascii c) - 48.

Definition number2 (a b : ascii) : Z := digit_value a * 10 + digit_value b.

(** Reading a string of the form [YYYY-MM-DD HH:MM:SS] back. *)
Definition parse_timestamp (s : string) : option datetime :=
  match list_ascii_of_string s with
  | [y1; y2; y3; y4; _; m1; m2; _; d1; d2; _; h1; h2; _; mi1; mi2; _; s1; s2] =>
      if forallb is_digit [y1; y2; y3; y4; m1; m2; d1; d2; h1; h2; mi1; mi2; s1; s2]
         && String.eqb (String.substring 4 1 s) "-"
         && String.eqb (String.substring 7 1 s) "-"
         && String.eqb (String.substring 10 1 s) " "
         && String.eqb (String.substring 13 1 s) ":"
         && String.eqb (String.substring 16 1 s) ":"
      then Some (DateTime (number2 y1 y2 * 100 + number2 y3 y4) (number2 m1 m2)
                   (number2 d1 d2) (number2 h1 h2) (number2 mi1 mi2) (number2 s1 s2))
      else None
  | _ => None
  end.

(** Checking a decidable property on the [p] integers from [lo] on. *)
Fixpoint check_range (f : Z -> bool) (p : positive) (lo : Z) : bool :=
  match p with
  | xH => f lo
  | xO p' => check_range f p' lo && check_range f p' (lo + Zpos p')
  | xI p' => f lo && check_range f p' (lo + 1) && check_range f p' (lo + 1 + Zpos p')
  end.

(** What is checked of each day [r] of the 400-year cycle that starts on
    0001-01-01: that [ymd2ord] inverts [ord2ymd] there, and that the year,
    month and day are in range. *)
Definition cycle_ok (r : Z) : bool :=
  let '(y, m, d) := ord2ymd (r + 1) in
  (ymd2ord y m d =? r + 1) && (1 <=? y) && (y <=? 400)
  && ((145730 <? r) || (y <=? 399))
  && (1 <=? m) && (m <=? 12) && (1 <=? d) && (d <=? days_in_month y m).

End CalendarSpec.

(** ** Observations *)

(** The index denotes no element of [data]. *)
Definition index_out_of_range {A} (data : list A) (idx : Z) : Prop :=
  idx < - Z.of_nat (length data) ∨ Z.of_nat (length data) ≤ idx.

(** A timestamp outside the years that [datetime] can hold. *)
Definition timestamp_out_of_range (t : Z) : Prop :=
  t < Calendar.MIN_TIMESTAMP ∨ Calendar.MAX_TIMESTAMP < t.

(** The observation has no usable [dt]: it is not an object, or the key is
    absent, or its value is not a number, or the number is no instant that
    [datetime] can hold. *)
Definition dt_missing_or_malformed (item : pyval) : Prop :=
  match item with
  | PDict entries =>
      match entries !! "dt" with
      | None => True
      | Some (PInt t) => timestamp_out_of_range t
      | Some (PBool _) => False
      | Some (PFloat (FFinite q)) =>
          timestamp_out_of_range (round_half_even (q * 1000000) / 1000000)
      | Some _ => True
      end
  | _ => True
  end.

(** The key [inner] of [item.outer] is missing: [outer] is absent from the
    object, or it is an object without [inner]. *)
Definition nested_key_absent (entries : Dict) (outer inner : string) : Prop :=
  entries !! outer = None
  ∨ ∃ o : Dict, entries !! outer = Some (PDict o) ∧ o !! inner = None.

(** The same for [item.outer[0].inner]: [outer] is absent, or it is a
    list whose first element is an object without [inner]. *)
Definition nested_first_key_absent (entries : Dict) (outer inner : string) : Prop :=
  entries !! outer = None
  ∨ ∃ (o : Dict) (rest : list pyval),
      entries !! outer = Some (PList (PDict o :: rest)) ∧ o !! inner = None.

(** ** The example of the specification *)

Definition quiet_world : World :=
  mkWorld (λ _ _, Raise (Exn ConnectionError "connection refused")) [] ∅ ∅.

Definition seattle_entries : Dict :=
  list_to_map [
    ("name", PStr "Seattle");
    ("sys", PDict (list_to_map [("country", PStr "US")]));
    ("main", PDict (list_to_map [
       ("temp", PFloat (FFinite (15 # 1)));
       ("feels_like", PFloat (FFinite (14 # 1)));
       ("humidity", PInt 70)]));
    ("weather", PList [PDict (list_to_map [
       ("main", PStr "Clouds");
       ("description", PStr "overcast clouds")])]);
    ("wind", PDict (list_to_map [("speed", PFloat (FFinite (31 # 10)))]));
    ("dt", PInt 1700000000)
  ].

Definition seattle : pyval := PDict seattle_entries.

(** Variants of the example: without its timestamp, with an empty city
    name, with an empty list of weather conditions, with [null] for the
    wind, and without the wind. *)
Definition seattle_without_dt : pyval := PDict (delete "dt" seattle_entries).
Definition seattle_unnamed : pyval := PDict (<["name" := PStr ""]> seattle_entries).
Definition seattle_no_conditions : pyval := PDict (<["weather" := PList []]> seattle_entries).
Definition seattle_null_wind : pyval := PDict (<["wind" := PNone]> seattle_entries).
Definition seattle_without_wind : pyval := PDict (delete "wind" seattle_entries).

Definition seattle_record : Dict :=
  list_to_map [
    ("city", PStr "Seattle");
    ("country", PStr "US");
    ("temp_celsius", PFloat (FFinite (15 # 1)));
    ("feels_like_celsius", PFloat (FFinite (14 # 1)));
    ("weather_main", PStr "Clouds");
    ("weather_desc", PStr "overcast clouds");
    ("humidity", PInt 70);
    ("wind_speed", PFloat (FFinite (31 # 10)));
    ("timestamp_utc", PStr "2023-11-14 22:13:20")
  ].


(** The example as objects in memory: the list [data] at location 1,
    the observation at 2, and the objects nested in it at 3 to 7. *)
Definition seattle_memory : gmap Heap.loc Heap.obj :=
  list_to_map [
    (1%positive, Heap.OList [Heap.VRef 2]);
    (2%positive, Heap.ODict (list_to_map [
       ("name", Heap.VStr "Seattle");
       ("sys", Heap.VRef 3);
       ("main", Heap.VRef 4);
       ("weather", Heap.VRef 5);
       ("wind", Heap.VRef 7);
       ("dt", Heap.VInt 1700000000)]));
    (3%positive, Heap.ODict (list_to_map [("country", Heap.VStr "US")]));
    (4%positive, Heap.ODict (list_to_map [
       ("temp", Heap.VFloat (FFinite (15 # 1)));
       ("feels_like", Heap.VFloat (FFinite (14 # 1)));
       ("humidity", Heap.VInt 70)]));
    (5%positive, Heap.OList [Heap.VRef 6]);
    (6%positive, Heap.ODict (list_to_map [
       ("main", Heap.VStr "Clouds");
       ("description", Heap.VStr "overcast clouds")]));
    (7%positive, Heap.ODict (list_to_map [("speed", Heap.VFloat (FFinite (31 # 10)))]))
  ].

Definition seattle_record_object : Heap.obj :=
  Heap.ODict (list_to_map [
    ("city", Heap.VStr "Seattle");
    ("country", Heap.VStr "US");
    ("temp_celsius", Heap.VFloat (FFinite (15 # 1)));
    ("feels_like_celsius", Heap.VFloat (FFinite (14 # 1)));
    ("weather_main", Heap.VStr "Clouds");
    ("weather_desc", Heap.VStr "overcast clouds");
    ("humidity", Heap.VInt 70);
    ("wind_speed", Heap.VFloat (FFinite (31 # 10)));
    ("timestamp_utc", Heap.VStr "2023-11-14 22:13:20")
  ]).

(** ** Beyond the first attempt *)

(** What a call returns or raises when the attempt with this outcome is
    its last one; [None] when the loop goes on after it. *)
Definition final_result (o : result (option pyval)) : option (result pyval) :=
  match o with
  | Ret (Some v) => Some (Ret v)
  | Ret None => None
  | Raise e => Some (Raise e)
  end.

(** What [get_weather_data] keeps of the response that ends a fetch: the
    body of a 200 response, if it parses and is truthy. *)
Definition kept_body (r : response) : option pyval :=
  if status_code r =? 200 then
    match json r with
    | Ret data => if truthy data then Some data else None
    | Raise _ => None
    end
  else None.

(** The response ends the fetch that receives it: it is an HTTP error, or
    a 200 response whose body parses. *)
Definition ends_fetch (r : response) : Prop :=
  status_code r = 200 → ∃ data, json r = Ret data.

(** ** Rows *)

(** The row that the observation at [idx] gives, if it gives one. *)
Definition accepted_row (data : list pyval) (idx : Z) : option pyval :=
  match read_fields data idx with
  | Ret f => if essential_present f then Some (PDict (record_of f)) else None
  | Raise _ => None
  end.

(** The keys of a record. *)
Definition RECORD_KEYS : list string :=
  ["city"; "country"; "temp_celsius"; "feels_like_celsius"; "weather_main";
   "weather_desc"; "humidity"; "wind_speed"; "timestamp_utc"].

(** ** New objects *)

(** The outcome [r] of a computation that went from the store [st] to the
    store [st'] is an exception, [None], or a reference to a record that
    the computation has created: a dictionary object with the keys of a
    record, at a location that held no object in [st]. *)
Definition new_record (st st' : Heap.state) (r : result Heap.val) : Prop :=
  match r with
  | Raise _ => True
  | Ret Heap.VNone => True
  | Ret (Heap.VRef l) =>
      Heap.objects st !! l = None
      ∧ ∃ entries, Heap.objects st' !! l = Some (Heap.ODict entries)
                   ∧ dom entries = list_to_set RECORD_KEYS
  | Ret _ => False
  end.

Definition returns_new_record (m : Heap.H Heap.val) : Prop :=
  ∀ st, new_record st (m st).2 (m st).1.

(** * Properties *)

(** ** The trace *)

Lemma emits_emits (a b : list event) (w : World) :
  emits b (emits a w) = emits (a ++ b) w.
Proof. unfold emits; simpl. by rewrite <- app_assoc. Qed.

Lemma emit_emits (ev : event) (evs : list event) (w : World) :
  emit ev (emits evs w) = emits (evs ++ [ev]) w.
Proof. apply emits_emits. Qed.

Lemma emits_nil (w : World) : emits [] w = w.
Proof. destruct w; unfold emits; simpl. by rewrite app_nil_r. Qed.

Lemma network_emits evs w : network (emits evs w) = network w.
Proof. reflexivity. Qed.

Lemma trace_emits evs w : trace (emits evs w) = trace w ++ evs.
Proof. reflexivity. Qed.

Lemma requests_of_app a b : requests_of (a ++ b) = requests_of a ++ requests_of b.
Proof. apply omap_app. Qed.

Lemma sleeps_of_app a b : sleeps_of (a ++ b) = sleeps_of a ++ sleeps_of b.
Proof. apply omap_app. Qed.

Lemma stdout_of_app a b : stdout_of (a ++ b) = stdout_of a ++ stdout_of b.
Proof. apply omap_app. Qed.

Lemma requests_emits evs w : requests (emits evs w) = requests w ++ requests_of evs.
Proof. unfold requests, requests_of; simpl. apply omap_app. Qed.

Lemma sleeps_emits evs w : sleeps (emits evs w) = sleeps w ++ sleeps_of evs.
Proof. unfold sleeps, sleeps_of; simpl. apply omap_app. Qed.

Lemma stdout_emits evs w : stdout (emits evs w) = stdout w ++ stdout_of evs.
Proof. unfold stdout, stdout_of; simpl. apply omap_app. Qed.

(** Unfolds the monadic plumbing and merges successive emissions. *)
Ltac run :=
  repeat (unfold mbind, mret, M_bind, M_ret, bind, ret, lift, raise,
            try_except, print, time_sleep, emit; simpl);
  rewrite ?emits_emits; simpl.

Lemma fetch_attempt_spec city url params w :
  let r := Request url params 5 in
  let o := attempt_outcome city (network w (length (requests w)) r) in
  fetch_attempt city url params w = (o.1, emits (Requested r :: o.2) w).
Proof.
  cbv zeta. unfold fetch_attempt, requests_get. run.
  destruct (network w (length (requests w)) (Request url params 5)) as [resp|e];
    simpl.
  - unfold http_error_message.
    destruct (status_code resp =? 200); simpl.
    + destruct (json resp) as [data|e]; simpl; [done|].
      unfold caught. destruct (is_RequestException (exn_cls e)); by run.
    + destruct (status_code resp =? 404); [|destruct (status_code resp =? 401)];
        by run.
  - unfold caught. destruct (is_RequestException (exn_cls e)); by run.
Qed.

(** ** One iteration of the retry loop *)

Lemma fetch_iteration_spec city url params bf attempt w :
  let r := Request url params 5 in
  let o := attempt_outcome city (network w (length (requests w)) r) in
  fetch_iteration city url params bf attempt w =
    match o.1 with
    | Ret None =>
        if Qle_bool 0 (backoff bf attempt)
        then (Ret None, emits (Requested r :: o.2 ++ [Slept (backoff bf attempt)]) w)
        else (Raise (Exn ValueError "sleep length must be non-negative"),
              emits (Requested r :: o.2) w)
    | other => (other, emits (Requested r :: o.2) w)
    end.
Proof.
  cbv zeta. unfold fetch_iteration. run. rewrite fetch_attempt_spec.
  destruct (attempt_outcome _ _) as [[[v|]|e] evs]; run; try done.
  destruct (Qle_bool 0 (backoff bf attempt)); by run.
Qed.

(** Sleeping after attempt number [attempt] is accepted when the backoff
    factor is not negative. *)
Lemma backoff_nonneg bf attempt : (0 <= bf)%Q → Qle_bool 0 (backoff bf attempt) = true.
Proof.
  intros Hbf. apply Qle_bool_iff. unfold backoff.
  apply Qmult_le_0_compat; [exact Hbf|].
  unfold Qle. simpl. pose proof (Z.pow_nonneg 2 attempt). lia.
Qed.

Lemma attempt_outcome_retries city o :
  (attempt_outcome city o).1 = Ret None ↔ raised_RequestException o = true.
Proof.
  unfold attempt_outcome, raised_RequestException, caught.
  destruct o as [r|e]; [destruct (status_code r =? 200); [destruct (json r)|]|];
    simpl; repeat case_match; simpl; split; congruence.
Qed.

Lemma for_each_all_fail city api_key bf (failure : nat → exn) n :
  (0 <= bf)%Q → ∀ s w,
  (∀ k, (k < n)%nat →
     network w (length (requests w) + k) (weather_request city api_key)
       = Raise (failure (s + k)%nat)
     ∧ is_RequestException (exn_cls (failure (s + k)%nat)) = true) →
  for_each (Z.of_nat <$> seq s n)
    (fetch_iteration city WEATHER_URL (weather_params city api_key) bf) w
  = (Ret None,
     emits (concat (failed_attempt (weather_request city api_key) bf failure <$> seq s n)) w).
Proof.
  intros Hbf. induction n as [|n IH]; intros s w Hfail; simpl.
  - run. by rewrite emits_nil.
  - run. rewrite fetch_iteration_spec. cbv zeta.
    destruct (Hfail 0%nat) as [Hnet Hcls]; [lia|].
    replace (s + 0)%nat with s in Hnet, Hcls by lia.
    replace (length (requests w) + 0)%nat with (length (requests w)) in Hnet by lia.
    fold (weather_request city api_key). rewrite Hnet. simpl.
    unfold caught. rewrite Hcls. simpl. rewrite (backoff_nonneg bf _ Hbf).
    rewrite IH.
    + by rewrite emits_emits.
    + intros k Hk. rewrite network_emits, requests_emits, length_app. simpl.
      destruct (Hfail (S k)) as [Hnet' Hcls']; [lia|].
      replace (s + S k)%nat with (S s + k)%nat in Hnet', Hcls' by lia.
      replace (length (requests w) + 1 + k)%nat
        with (length (requests w) + S k)%nat by lia.
      done.
Qed.

Lemma requests_of_failed_attempts r bf failure (l : list nat) :
  requests_of (concat (failed_attempt r bf failure <$> l)) = replicate (length l) r.
Proof. induction l as [|i l IH]; simpl; [done|]. f_equal. exact IH. Qed.

Lemma sleeps_of_failed_attempts r bf failure (l : list nat) :
  sleeps_of (concat (failed_attempt r bf failure <$> l))
  = backoff bf <$> (Z.of_nat <$> l).
Proof. induction l as [|i l IH]; simpl; [done|]. f_equal. exact IH. Qed.

Lemma stdout_of_failed_attempts r bf failure (l : list nat) :
  stdout_of (concat (failed_attempt r bf failure <$> l))
  = (λ i, request_exception_message (failure i)) <$> l.
Proof. induction l as [|i l IH]; simpl; [done|]. f_equal. exact IH. Qed.

Lemma attempt_outcome_prints_only city o :
  requests_of (attempt_outcome city o).2 = []
  ∧ sleeps_of (attempt_outcome city o).2 = [].
Proof.
  unfold attempt_outcome, caught.
  destruct o as [r|e]; repeat case_match; done.
Qed.

(** The trace that one iteration appends holds exactly one request. *)
Lemma fetch_iteration_requests city api_key bf attempt w :
  let it := fetch_iteration city WEATHER_URL (weather_params city api_key) bf attempt w in
  network it.2 = network w
  ∧ requests it.2 = requests w ++ [weather_request city api_key]
  ∧ (it.1 = Ret None →
     raised_RequestException
       (network w (length (requests w)) (weather_request city api_key)) = true).
Proof.
  cbv zeta. rewrite fetch_iteration_spec. cbv zeta.
  fold (weather_request city api_key).
  rewrite <- (attempt_outcome_retries city).
  destruct (attempt_outcome_prints_only city
              (network w (length (requests w)) (weather_request city api_key)))
    as [Hreq _].
  destruct (attempt_outcome _ _) as [[[v|]|e] evs]; simpl in *;
    try destruct (Qle_bool 0 (backoff bf attempt)); simpl;
    rewrite requests_emits; simpl; rewrite ?requests_of_app, Hreq; simpl;
    (split; [done|split; [done|congruence]]).
Qed.

Lemma for_each_retries_only_exceptions city api_key bf n : ∀ s w r w',
  for_each (Z.of_nat <$> seq s n)
    (fetch_iteration city WEATHER_URL (weather_params city api_key) bf) w = (r, w') →
  network w' = network w
  ∧ (length (requests w) ≤ length (requests w'))%nat
  ∧ ∀ k, (length (requests w) + k + 1 < length (requests w'))%nat →
         raised_RequestException
           (network w (length (requests w) + k) (weather_request city api_key)) = true.
Proof.
  induction n as [|n IH]; intros s w r w' Hrun; simpl in Hrun.
  - injection Hrun as <- <-. split; [done|split; [done|]]. intros k Hk. lia.
  - unfold mbind, M_bind, bind in Hrun.
    destruct (fetch_iteration_requests city api_key bf (Z.of_nat s) w)
      as (Hnet & Hreq & Hnone).
    destruct (fetch_iteration _ _ _ _ _ w) as [[[v|]|e] w1] eqn:Hit; simpl in *.
    + injection Hrun as <- <-. rewrite Hreq, length_app; simpl.
      split; [done|split; [lia|]]. intros k Hk. lia.
    + destruct (IH (S s) w1 r w' Hrun) as (Hnet' & Hlen' & Hretry').
      rewrite Hreq, length_app in Hlen', Hretry'; simpl in Hlen', Hretry'.
      split; [congruence|split; [lia|]].
      intros [|k] Hk.
      * rewrite Nat.add_0_r. by apply Hnone.
      * specialize (Hretry' k). rewrite Hnet in Hretry'.
        replace (length (requests w) + 1 + k)%nat
          with (length (requests w) + S k)%nat in Hretry' by lia.
        apply Hretry'. lia.
    + injection Hrun as <- <-. rewrite Hreq, length_app; simpl.
      split; [done|split; [lia|]]. intros k Hk. lia.
Qed.

(** ** The retry loop as a whole *)



(** C10. With [retries = 0] the loop body never runs: no request is sent,
    nothing is slept, the final failure message is printed and [None] is
    returned. *)
Theorem fetch_zero_retries (city api_key : string) (bf : Q) (w : World) :
  let run := fetch_raw_weather_data_for_city city api_key 0 bf w in
  run.1 = Ret PNone
  ∧ trace run.2 = trace w ++ [Printed (fetch_failed_message city 0)]
  ∧ requests run.2 = requests w
  ∧ sleeps run.2 = sleeps w.
Proof.
  cbv zeta. unfold fetch_raw_weather_data_for_city, range. simpl. run.
  rewrite requests_emits, sleeps_emits. simpl. by rewrite !app_nil_r.
Qed.



(** ** Dates and times *)

Module CalendarFacts.
Import Calendar CalendarSpec.

Lemma cycle_all : check_range cycle_ok 146097 0 = true.
Proof. vm_cast_no_check (eq_refl true). Qed.

Lemma check_range_sound f p : forall lo,
  check_range f p lo = true -> forall z, lo <= z < lo + Zpos p -> f z = true.
Proof.
  induction p as [p IH|p IH|]; intros lo H z Hz; simpl in H.
  - apply andb_prop in H as [H H2]. apply andb_prop in H as [H0 H1].
    destruct (Z.eq_dec z lo) as [->|Hne]; [exact H0|].
    destruct (Z_lt_le_dec z (lo + 1 + Zpos p)).
    + apply (IH _ H1). lia.
    + apply (IH _ H2). lia.
  - apply andb_prop in H as [H1 H2].
    destruct (Z_lt_le_dec z (lo + Zpos p)).
    + apply (IH _ H1). lia.
    + apply (IH _ H2). lia.
  - assert (z = lo) as -> by lia. exact H.
Qed.

Lemma cycle_ok_all r : 0 <= r < 146097 -> cycle_ok r = true.
Proof. intros Hr. apply (check_range_sound _ _ _ cycle_all). lia. Qed.

Lemma is_leap_shift y k : is_leap (y + 400 * k) = is_leap y.
Proof.
  unfold is_leap.
  replace (y + 400 * k) with (y + (100 * k) * 4) at 1 by lia.
  replace (y + 400 * k) with (y + (4 * k) * 100) at 1 by lia.
  replace (y + 400 * k) with (y + k * 400) by lia.
  now rewrite !Z_mod_plus_full.
Qed.

Lemma days_before_year_shift y k :
  days_before_year (y + 400 * k) = days_before_year y + 146097 * k.
Proof.
  unfold days_before_year. cbv zeta.
  replace (y + 400 * k - 1) with (y - 1 + (100 * k) * 4) at 2 by lia.
  replace (y + 400 * k - 1) with (y - 1 + (4 * k) * 100) at 2 by lia.
  replace (y + 400 * k - 1) with (y - 1 + k * 400) at 2 by lia.
  rewrite !Z_div_plus_full by lia. lia.
Qed.

Lemma ymd2ord_shift y m d k :
  ymd2ord (y + 400 * k) m d = ymd2ord y m d + 146097 * k.
Proof.
  unfold ymd2ord, days_before_month.
  rewrite is_leap_shift, days_before_year_shift. lia.
Qed.

Lemma days_in_month_shift y m k : days_in_month (y + 400 * k) m = days_in_month y m.
Proof. unfold days_in_month. now rewrite is_leap_shift. Qed.

Lemma ord2ymd_shift n k :
  ord2ymd (n + 146097 * k) = let '(y, m, d) := ord2ymd n in (y + 400 * k, m, d).
Proof.
  unfold ord2ymd. cbv zeta. unfold DI400Y.
  replace (n + 146097 * k - 1) with (n - 1 + k * 146097) by lia.
  rewrite Z_div_plus_full, Z_mod_plus_full by lia.
  repeat match goal with |- context [if ?c then _ else _] => destruct c end;
    f_equal; f_equal; lia.
Qed.


Lemma ord2ymd_correct n :
  let '(y, m, d) := ord2ymd n in
  let k := (n - 1) / 146097 in
  ymd2ord y m d = n ∧ 1 <= m <= 12 ∧ 1 <= d <= days_in_month y m
  ∧ 400 * k + 1 <= y <= 400 * k + 400
  ∧ ((n - 1) mod 146097 <= 145730 → y <= 400 * k + 399).
Proof.
  pose proof (Z.div_mod (n - 1) 146097 ltac:(lia)) as Hdm.
  pose proof (Z.mod_pos_bound (n - 1) 146097 ltac:(lia)) as Hr.
  cbv zeta.
  set (k := (n - 1) / 146097) in *. set (r := (n - 1) mod 146097) in *.
  replace n with (r + 1 + 146097 * k) by lia.
  rewrite ord2ymd_shift.
  pose proof (cycle_ok_all r Hr) as Hok. unfold cycle_ok in Hok.
  destruct (ord2ymd (r + 1)) as [[y m] d].
  rewrite ymd2ord_shift, days_in_month_shift.
  repeat (apply andb_prop in Hok as [Hok ?]).
  lia.
Qed.

(** [gmtime] and [timegm] are inverse on every instant. *)
Lemma timegm_gmtime t : timegm (gmtime t) = t.
Proof.
  unfold gmtime, timegm.
  pose proof (ord2ymd_correct (EPOCH_ORDINAL + t / 86400)) as H.
  destruct (ord2ymd _) as [[y m] d]. cbn [year month day hour minute second].
  destruct H as (-> & _). unfold EPOCH_ORDINAL.
  Z.div_mod_to_equations. lia.
Qed.

Lemma gmtime_valid t : valid_datetime (gmtime t).
Proof.
  unfold gmtime, valid_datetime.
  pose proof (ord2ymd_correct (EPOCH_ORDINAL + t / 86400)) as H.
  destruct (ord2ymd _) as [[y m] d]. simpl. destruct H as (_ & ? & ? & _).
  repeat split; try lia; Z.div_mod_to_equations; lia.
Qed.

Lemma gmtime_year t :
  MIN_TIMESTAMP <= t <= MAX_TIMESTAMP → MINYEAR <= year (gmtime t) <= MAXYEAR.
Proof.
  unfold gmtime, MIN_TIMESTAMP, MAX_TIMESTAMP, MINYEAR, MAXYEAR, EPOCH_ORDINAL.
  intros Ht.
  pose proof (ord2ymd_correct (719163 + t / 86400)) as H.
  destruct (ord2ymd _) as [[y m] d]. simpl. destruct H as (_ & _ & _ & Hy & Hy').
  assert (-719162 <= t / 86400 <= 2932896) as Hdays
    by (Z.div_mod_to_equations; lia).
  set (n := 719163 + t / 86400 - 1) in *.
  pose proof (Z.div_mod n 146097 ltac:(lia)) as Hdm.
  pose proof (Z.mod_pos_bound n 146097 ltac:(lia)) as Hr.
  assert (0 <= n <= 3652058) as Hn by lia.
  clearbody n.
  set (k := n / 146097) in *. set (r := n mod 146097) in *. clearbody k r.
  assert (0 <= k <= 24) by lia.
  destruct (Z.eq_dec k 24); lia.
Qed.

Lemma digit_spec d : 0 <= d <= 9 → is_digit (digit d) = true ∧ digit_value (digit d) = d.
Proof.
  intros Hd.
  assert (d = 0 ∨ d = 1 ∨ d = 2 ∨ d = 3 ∨ d = 4 ∨ d = 5 ∨ d = 6 ∨ d = 7 ∨ d = 8 ∨ d = 9)
    as Hcases by lia.
  repeat (destruct Hcases as [->|Hcases]; [by split|]). by subst.
Qed.

Lemma parse_strftime dt :
  0 <= year dt <= 9999 → 0 <= month dt <= 99 → 0 <= day dt <= 99 →
  0 <= hour dt <= 99 → 0 <= minute dt <= 99 → 0 <= second dt <= 99 →
  parse_timestamp (strftime dt) = Some dt.
Proof.
  destruct dt as [Y M D h m s]; simpl. intros.
  unfold parse_timestamp, strftime, zero_pad4, zero_pad2, number2; simpl.
  repeat match goal with
         | |- context [is_digit (digit ?x)] =>
             let Hd := fresh in let Hv := fresh in
             destruct (digit_spec x) as [Hd Hv]; [Z.div_mod_to_equations; lia|]; rewrite Hd
         end.
  simpl.
  repeat match goal with
         | |- context [digit_value (digit ?x)] =>
             let Hd := fresh in let Hv := fresh in
             destruct (digit_spec x) as [Hd Hv]; [Z.div_mod_to_equations; lia|]; rewrite Hv
         end.
  f_equal. f_equal; Z.div_mod_to_equations; lia.
Qed.

End CalendarFacts.

(** ** Reading the fields of an observation *)

Lemma normalize_index_out_of_range len i :
  0 ≤ len → i < - len ∨ len ≤ i → normalize_index len i = None.
Proof.
  intros Hlen Hout. unfold normalize_index.
  destruct (Z.ltb_spec i 0);
    repeat match goal with
           | |- context [?a <=? ?b] => destruct (Z.leb_spec a b)
           | |- context [?a <? ?b] => destruct (Z.ltb_spec a b)
           end; simpl; try done; lia.
Qed.

Lemma list_getitem_out_of_range {A} (data : list A) idx :
  index_out_of_range data idx →
  list_getitem data idx = Raise (Exn IndexError "list index out of range").
Proof.
  intros Hout. unfold list_getitem.
  rewrite normalize_index_out_of_range; [done|lia|exact Hout].
Qed.

Lemma raises_Exception_bind {A B} (r : result A) (k : A → result B) :
  raises_Exception r → (∀ a, raises_Exception (k a)) → raises_Exception (r ≫= k).
Proof.
  intros Hr Hk e. unfold mbind, result_bind, rbind.
  destruct r as [a|e']; [apply Hk|]. intros [= ->]. by apply Hr.
Qed.

Lemma raises_Exception_ret {A} (a : A) : raises_Exception (mret a).
Proof. intros e. discriminate. Qed.

Lemma py_get_raises o key dflt : raises_Exception (py_get o key dflt).
Proof. intros e. destruct o; simpl; intros [= <-]; done. Qed.

Lemma list_getitem_raises {A} (l : list A) i : raises_Exception (list_getitem l i).
Proof. intros e. unfold list_getitem. case_match; intros [= <-]; done. Qed.

Lemma py_getitem_raises o i : raises_Exception (py_getitem o i).
Proof.
  intros e. destruct o; simpl; try (intros [= <-]; done).
  - unfold str_getitem. case_match; simpl; intros [= <-]; done.
  - apply list_getitem_raises.
Qed.

Lemma utcfromtimestamp_raises v : raises_Exception (utcfromtimestamp v).
Proof.
  intros e. unfold utcfromtimestamp, timestamp_seconds, rbind.
  repeat case_match; simplify_eq; intros [= <-]; done.
Qed.

Lemma get_nested_raises item outer inner : raises_Exception (get_nested item outer inner).
Proof.
  unfold get_nested. apply raises_Exception_bind; [apply py_get_raises|].
  intros o. apply py_get_raises.
Qed.

Lemma get_nested_first_raises item outer inner :
  raises_Exception (get_nested_first item outer inner).
Proof.
  unfold get_nested_first.
  apply raises_Exception_bind; [apply py_get_raises|]. intros o.
  apply raises_Exception_bind; [apply py_getitem_raises|]. intros first.
  apply py_get_raises.
Qed.

Lemma read_fields_raises data idx : raises_Exception (read_fields data idx).
Proof.
  unfold read_fields.
  repeat (apply raises_Exception_bind;
          [first [apply list_getitem_raises | apply py_get_raises
                 | apply get_nested_raises | apply get_nested_first_raises
                 | apply utcfromtimestamp_raises]
          | intros ?]).
  apply raises_Exception_ret.
Qed.

(** The [try] statement of [extract_required_fields], by the outcome of
    reading the fields. *)
Lemma extract_required_fields_spec data idx w :
  extract_required_fields data idx w =
    match read_fields data idx with
    | Ret f =>
        if essential_present f then (Ret (PDict (record_of f)), w)
        else (Ret PNone, emit (Printed (missing_essential_message idx)) w)
    | Raise e => (Ret PNone, emit (Printed (extraction_failed_message e)) w)
    end.
Proof.
  unfold extract_required_fields. run.
  pose proof (read_fields_raises data idx) as Hexn.
  destruct (read_fields data idx) as [f|e]; simpl.
  - by destruct (essential_present f).
  - by rewrite (Hexn e eq_refl).
Qed.

(** Reading the fields succeeds exactly when every step of it does. *)
Lemma read_fields_Ret data idx f :
  read_fields data idx = Ret f ↔
  ∃ item timestamp_utc dt,
    list_getitem data idx = Ret item
    ∧ py_get item "name" PNone = Ret (f_city f)
    ∧ get_nested item "sys" "country" = Ret (f_country f)
    ∧ get_nested item "main" "temp" = Ret (f_temp_celsius f)
    ∧ get_nested item "main" "feels_like" = Ret (f_feels_like_celsius f)
    ∧ get_nested_first item "weather" "main" = Ret (f_weather_main f)
    ∧ get_nested_first item "weather" "description" = Ret (f_weather_desc f)
    ∧ get_nested item "main" "humidity" = Ret (f_humidity f)
    ∧ get_nested item "wind" "speed" = Ret (f_wind_speed f)
    ∧ py_get item "dt" PNone = Ret timestamp_utc
    ∧ utcfromtimestamp timestamp_utc = Ret dt
    ∧ f_timestamp_str f = Calendar.strftime dt.
Proof.
  unfold read_fields, mbind, result_bind, rbind, mret, result_ret. split.
  - intros Hread.
    repeat match type of Hread with
           | match ?r with Ret _ => _ | Raise _ => _ end = _ =>
               let H := fresh "Hstep" in destruct r eqn:H; [|discriminate]
           end.
    injection Hread as <-. simpl. eauto 20.
  - intros (item & ts & dt & H0 & H1 & H2 & H3 & H4 & H5 & H6 & H7 & H8 & H9 & H10 & H11).
    rewrite H0, H1, H2, H3, H4, H5, H6, H7, H8, H9, H10.
    destruct f; simpl in *. by rewrite H11.
Qed.

(** ** Records *)

Lemma record_of_lookups f :
  record_of f !! "city" = Some (f_city f)
  ∧ record_of f !! "country" = Some (f_country f)
  ∧ record_of f !! "temp_celsius" = Some (f_temp_celsius f)
  ∧ record_of f !! "feels_like_celsius" = Some (f_feels_like_celsius f)
  ∧ record_of f !! "weather_main" = Some (f_weather_main f)
  ∧ record_of f !! "weather_desc" = Some (f_weather_desc f)
  ∧ record_of f !! "humidity" = Some (f_humidity f)
  ∧ record_of f !! "wind_speed" = Some (f_wind_speed f)
  ∧ record_of f !! "timestamp_utc" = Some (PStr (f_timestamp_str f)).
Proof. destruct f. repeat split; vm_compute; reflexivity. Qed.

Lemma truthy_not_None v : truthy v = true → v ≠ PNone.
Proof. by intros Ht ->. Qed.

Lemma is_not_None_spec v : is_not_None v = true ↔ v ≠ PNone.
Proof. destruct v; simpl; split; congruence. Qed.

Lemma essential_present_spec f :
  essential_present f = true ↔
  truthy (f_city f) = true ∧ truthy (f_country f) = true ∧ f_temp_celsius f ≠ PNone.
Proof.
  unfold essential_present. rewrite !andb_true_iff, is_not_None_spec. tauto.
Qed.

(** A returned record is the record of fields that were read and found
    essential. *)
Lemma returned_record_inv data idx w rec :
  (extract_required_fields data idx w).1 = Ret (PDict rec) →
  ∃ f, read_fields data idx = Ret f ∧ essential_present f = true ∧ rec = record_of f.
Proof.
  rewrite extract_required_fields_spec.
  destruct (read_fields data idx) as [f|e]; simpl; [|discriminate].
  destruct (essential_present f) eqn:Hess; simpl; [|discriminate].
  intros [= <-]. eauto.
Qed.

(** C1, amended. Where reading the fields of the observation raises
    nothing (the index is in range, the containers have the shape that the
    lookups expect, the timestamp converts), a record is returned exactly
    when city and country are truthy and the temperature is not [None];
    otherwise the skip message is printed and [None] returned.  A record
    that is returned holds a city, a country and a temperature that are not
    [None]. *)
Theorem extract_record_iff_essentials (data : list pyval) (idx : Z) (w : World) :
  let run := extract_required_fields data idx w in
  (∀ f, read_fields data idx = Ret f →
     (returns_record data idx w ↔
        truthy (f_city f) = true ∧ truthy (f_country f) = true
        ∧ f_temp_celsius f ≠ PNone)
     ∧ (essential_present f = true → run = (Ret (PDict (record_of f)), w))
     ∧ (essential_present f = false →
          run = (Ret PNone, emit (Printed (missing_essential_message idx)) w)))
  ∧ (∀ rec, run.1 = Ret (PDict rec) → record_has_essentials rec).
Proof.
  cbv zeta. split.
  - intros f Hread. unfold returns_record.
    rewrite extract_required_fields_spec, Hread, <- essential_present_spec.
    destruct (essential_present f); simpl.
    + split; [|done]. split; [done|]. intros _. by eexists.
    + split; [|done]. split; [|done]. by intros [rec ?].
  - intros rec Hrec.
    destruct (returned_record_inv _ _ _ _ Hrec) as (f & _ & Hess & ->).
    apply essential_present_spec in Hess as (Hcity & Hcountry & Htemp).
    destruct (record_of_lookups f) as (Hc & Hk & Ht & _).
    exists (f_city f), (f_country f), (f_temp_celsius f).
    repeat split; auto using truthy_not_None.
Qed.

Lemma extract_record_iff_essentials_witness :
  extract_required_fields [seattle] 0 quiet_world = (Ret (PDict seattle_record), quiet_world)
  ∧ extract_required_fields [seattle_unnamed] 0 quiet_world
    = (Ret PNone,
       emit (Printed "Missing essential data for index 0. Skipping printing that is why")
         quiet_world).
Proof.
  split.
  - destruct (extract_record_iff_essentials [seattle] 0 quiet_world) as [Hread _].
    destruct (Hread (Fields (PStr "Seattle") (PStr "US") (PFloat (FFinite (15 # 1)))
                       (PFloat (FFinite (14 # 1))) (PStr "Clouds")
                       (PStr "overcast clouds") (PInt 70) (PFloat (FFinite (31 # 10)))
                       "2023-11-14 22:13:20"))
      as (_ & Hrecord & _); [vm_compute; reflexivity|].
    rewrite Hrecord; [vm_compute; reflexivity|reflexivity].
  - destruct (extract_record_iff_essentials [seattle_unnamed] 0 quiet_world) as [Hread _].
    destruct (Hread (Fields (PStr "") (PStr "US") (PFloat (FFinite (15 # 1)))
                       (PFloat (FFinite (14 # 1))) (PStr "Clouds")
                       (PStr "overcast clouds") (PInt 70) (PFloat (FFinite (31 # 10)))
                       "2023-11-14 22:13:20"))
      as (_ & _ & Hskip); [vm_compute; reflexivity|].
    rewrite Hskip; vm_compute; reflexivity.
Defined.

(** C1 as stated fails: that the three values are present is not enough
    for a record.  An observation whose city name, country and temperature
    are all present and not [null] yields no record when its timestamp is
    missing (and then the failure message is printed, not the skip
    message), and none when its city name is the empty string. *)
Lemma record_iff_non_null_counterexample :
  (essentials_non_null seattle_without_dt
   ∧ ¬ returns_record [seattle_without_dt] 0 quiet_world
   ∧ ∃ e, exn_cls e = TypeError
          ∧ stdout (extract_required_fields [seattle_without_dt] 0 quiet_world).2
            = [extraction_failed_message e])
  ∧ (essentials_non_null seattle_unnamed
     ∧ ¬ returns_record [seattle_unnamed] 0 quiet_world).
Proof.
  assert (∀ item,
            (∃ city, item = PDict (<["name" := city]> seattle_entries) ∧ city ≠ PNone)
            ∨ item = seattle_without_dt →
            essentials_non_null item) as Hess.
  { intros item [(city & -> & Hcity)| ->].
    - exists (<["name" := city]> seattle_entries),
        (list_to_map [("country", PStr "US")]),
        (list_to_map [("temp", PFloat (FFinite (15 # 1)));
                      ("feels_like", PFloat (FFinite (14 # 1)));
                      ("humidity", PInt 70)]),
        city, (PStr "US"), (PFloat (FFinite (15 # 1))).
      repeat split; try done; vm_compute; reflexivity.
    - exists (delete "dt" seattle_entries),
        (list_to_map [("country", PStr "US")]),
        (list_to_map [("temp", PFloat (FFinite (15 # 1)));
                      ("feels_like", PFloat (FFinite (14 # 1)));
                      ("humidity", PInt 70)]),
        (PStr "Seattle"), (PStr "US"), (PFloat (FFinite (15 # 1))).
      repeat split; try done; vm_compute; reflexivity. }
  split; [split; [|split]|split].
  - apply Hess. by right.
  - intros [rec Hrec]. vm_compute in Hrec. discriminate.
  - eexists (Exn TypeError _). split; [reflexivity|]. vm_compute. reflexivity.
  - apply Hess. left. by exists (PStr "").
  - intros [rec Hrec]. vm_compute in Hrec. discriminate.
Qed.

(** C3. The observation of the specification's example yields the record
    of the specification's example, and prints nothing. *)
Theorem extract_seattle (w : World) :
  extract_required_fields [seattle] 0 w = (Ret (PDict seattle_record), w).
Proof. rewrite extract_required_fields_spec. vm_compute. reflexivity. Qed.

(** ** The timestamp *)

Lemma utcfromtimestamp_malformed (entries : Dict) :
  dt_missing_or_malformed (PDict entries) →
  ∃ e, (py_get (PDict entries) "dt" PNone ≫= utcfromtimestamp) = Raise e.
Proof.
  unfold dt_missing_or_malformed, timestamp_out_of_range. simpl.
  unfold mbind, result_bind, rbind, utcfromtimestamp, timestamp_seconds.
  destruct (entries !! "dt") as [[| | t |[q| |]| | |]|]; simpl;
    intros Hbad; try done; try (by eexists).
  - destruct (Z.leb_spec Calendar.MIN_TIMESTAMP t);
      destruct (Z.leb_spec t Calendar.MAX_TIMESTAMP); simpl; try (by eexists); lia.
  - set (t := round_half_even _ / _) in *.
    destruct (Z.leb_spec Calendar.MIN_TIMESTAMP t);
      destruct (Z.leb_spec t Calendar.MAX_TIMESTAMP); simpl; try (by eexists); lia.
Qed.

Lemma strftime_length dt : String.length (Calendar.strftime dt) = 19%nat.
Proof. reflexivity. Qed.



(** ** Nested lookups *)

Lemma get_nested_absent (entries : Dict) outer inner :
  nested_key_absent entries outer inner →
  get_nested (PDict entries) outer inner = Ret PNone.
Proof.
  unfold get_nested. simpl.
  intros [Houter|(o & Houter & Hinner)]; rewrite Houter; simpl.
  - by rewrite lookup_empty.
  - by rewrite Hinner.
Qed.

Lemma get_nested_first_absent (entries : Dict) outer inner :
  nested_first_key_absent entries outer inner →
  get_nested_first (PDict entries) outer inner = Ret PNone.
Proof.
  unfold get_nested_first. simpl.
  intros [Houter|(o & rest & Houter & Hinner)]; rewrite Houter; simpl.
  - by rewrite lookup_empty.
  - by rewrite Hinner.
Qed.

(** C6, amended. In an observation that is an object, a nested lookup
    whose key is absent yields [None] and raises nothing, where absent
    means: the outer key is not in the observation, or the outer value is
    an object (for [weather]: a list whose first element is an object)
    that lacks the inner key.  The lookups are independent: when each of
    them and the timestamp conversion yield a value, and city and country
    are truthy and the temperature is not [None], the record holds exactly
    these values, [None] for the fields that were absent. *)
Theorem missing_nested_key_yields_None (entries : Dict) :
  let item := PDict entries in
  (∀ outer inner,
     nested_key_absent entries outer inner →
     get_nested item outer inner = Ret PNone)
  ∧ (∀ outer inner,
       nested_first_key_absent entries outer inner →
       get_nested_first item outer inner = Ret PNone)
  ∧ (∀ data idx w city country temp feels_like weather_main weather_desc humidity
       wind_speed timestamp_utc dt,
       list_getitem data idx = Ret item →
       py_get item "name" PNone = Ret city →
       get_nested item "sys" "country" = Ret country →
       get_nested item "main" "temp" = Ret temp →
       get_nested item "main" "feels_like" = Ret feels_like →
       get_nested_first item "weather" "main" = Ret weather_main →
       get_nested_first item "weather" "description" = Ret weather_desc →
       get_nested item "main" "humidity" = Ret humidity →
       get_nested item "wind" "speed" = Ret wind_speed →
       py_get item "dt" PNone = Ret timestamp_utc →
       utcfromtimestamp timestamp_utc = Ret dt →
       truthy city = true → truthy country = true → temp ≠ PNone →
       extract_required_fields data idx w =
         (Ret (PDict (list_to_map [
            ("city", city); ("country", country); ("temp_celsius", temp);
            ("feels_like_celsius", feels_like); ("weather_main", weather_main);
            ("weather_desc", weather_desc); ("humidity", humidity);
            ("wind_speed", wind_speed);
            ("timestamp_utc", PStr (Calendar.strftime dt))])), w)).
Proof.
  cbv zeta. split; [|split].
  - intros outer inner. apply get_nested_absent.
  - intros outer inner. apply get_nested_first_absent.
  - intros data idx w city country temp feels wmain wdesc hum wind ts dt
      Hitem Hcity Hcountry Htemp Hfeels Hwmain Hwdesc Hhum Hwind Hts Hdt
      Tcity Tcountry Ttemp.
    set (f := Fields city country temp feels wmain wdesc hum wind (Calendar.strftime dt)).
    assert (read_fields data idx = Ret f) as Hread.
    { apply read_fields_Ret. exists (PDict entries), ts, dt. by repeat split. }
    assert (essential_present f = true) as Hess by by apply essential_present_spec.
    rewrite extract_required_fields_spec, Hread, Hess. reflexivity.
Qed.

Lemma missing_nested_key_yields_None_witness :
  get_nested seattle_without_wind "wind" "speed" = Ret PNone
  ∧ extract_required_fields [seattle_without_wind] 0 quiet_world
    = (Ret (PDict (<["wind_speed" := PNone]> seattle_record)), quiet_world).
Proof.
  destruct (missing_nested_key_yields_None (delete "wind" seattle_entries))
    as (Hnested & _ & Hrecord).
  split.
  - apply Hnested. left. vm_compute. reflexivity.
  - rewrite (Hrecord [seattle_without_wind] 0 quiet_world
               (PStr "Seattle") (PStr "US") (PFloat (FFinite (15 # 1)))
               (PFloat (FFinite (14 # 1))) (PStr "Clouds") (PStr "overcast clouds")
               (PInt 70) PNone (PInt 1700000000) (Calendar.gmtime 1700000000));
      try (vm_compute; reflexivity).
    discriminate.
Defined.

(** C6 as stated fails where the container itself is there but is not
    what the lookup expects: with an empty [weather] list, or with [null]
    for [wind], the lookup raises, and the whole record is lost although
    everything else in the observation is in order. *)
Lemma nested_lookup_counterexample :
  (get_nested_first seattle_no_conditions "weather" "main"
   = Raise (Exn IndexError "list index out of range")
   ∧ extract_required_fields [seattle_no_conditions] 0 quiet_world
     = (Ret PNone,
        emit (Printed "Couldn't extract the required fields -  list index out of range")
          quiet_world))
  ∧ (get_nested seattle_null_wind "wind" "speed"
     = Raise (Exn AttributeError "'NoneType' object has no attribute 'get'")
     ∧ extract_required_fields [seattle_null_wind] 0 quiet_world
       = (Ret PNone,
          emit (Printed "Couldn't extract the required fields -  'NoneType' object has no attribute 'get'")
            quiet_world)).
Proof. repeat split; vm_compute; reflexivity. Qed.

(** ** Indices *)

(** C8. An index that is out of range for the sequence (every index is,
    for the empty sequence) yields [None] and the printed [IndexError];
    and whatever the index, the call returns a value: no exception leaves
    it. *)
Theorem extract_index_out_of_range (data : list pyval) (idx : Z) (w : World) :
  index_out_of_range data idx →
  extract_required_fields data idx w
  = (Ret PNone,
     emit (Printed (extraction_failed_message (Exn IndexError "list index out of range"))) w)
  ∧ ∀ i w0, ∃ v, (extract_required_fields data i w0).1 = Ret v.
Proof.
  intros Hout. split.
  - rewrite extract_required_fields_spec. unfold read_fields.
    by rewrite (list_getitem_out_of_range data idx Hout).
  - intros i w0. rewrite extract_required_fields_spec.
    destruct (read_fields data i) as [f|e]; [destruct (essential_present f)|];
      by eexists.
Qed.

Lemma extract_index_out_of_range_witness :
  extract_required_fields [] 0 quiet_world
  = (Ret PNone,
     emit (Printed "Couldn't extract the required fields -  list index out of range")
       quiet_world)
  ∧ (extract_required_fields [seattle] (-2) quiet_world).1 = Ret PNone.
Proof.
  split.
  - apply (extract_index_out_of_range [] 0 quiet_world). right. simpl. lia.
  - destruct (extract_index_out_of_range [seattle] (-2) quiet_world) as [Hrun _].
    + left. simpl. lia.
    + rewrite Hrun. reflexivity.
Defined.

(** ** The credential *)

(** C7. When [API_KEY] is neither in the environment nor in the [.env]
    file, [get_weather_data] prints the missing-credential message once
    and returns the empty list: nothing is raised, no request is sent and
    nothing is slept, whatever the cities. *)
Theorem get_weather_data_without_key (cities : list string) (w : World) :
  environ w !! "API_KEY" = None →
  dotenv_file w !! "API_KEY" = None →
  let run := get_weather_data cities w in
  run.1 = Ret []
  ∧ trace run.2 = trace w ++ [Printed API_KEY_MISSING_MESSAGE]
  ∧ requests run.2 = requests w
  ∧ sleeps run.2 = sleeps w
  ∧ stdout run.2 = stdout w ++ [API_KEY_MISSING_MESSAGE].
Proof.
  intros Henv Hfile. cbv zeta.
  unfold get_weather_data, load_dotenv, os_getenv. run.
  assert ((environ w ∪ dotenv_file w) !! "API_KEY" = None) as ->
    by by apply lookup_union_None.
  run. unfold requests, sleeps, stdout. simpl.
  rewrite requests_of_app, sleeps_of_app, stdout_of_app. simpl.
  by rewrite !app_nil_r.
Qed.

Lemma get_weather_data_without_key_witness :
  let run := get_weather_data ["Seattle"; "Mumbai"; "Los Angeles"] quiet_world in
  run.1 = Ret [] ∧ trace run.2 = [Printed API_KEY_MISSING_MESSAGE].
Proof.
  cbv zeta.
  destruct (get_weather_data_without_key ["Seattle"; "Mumbai"; "Los Angeles"] quiet_world)
    as (Hret & Htrace & _); [reflexivity|reflexivity|].
  split; [exact Hret|exact Htrace].
Defined.

(** ** The objects in memory *)

Module HeapFacts.
Import Heap.

Lemma preserves_ret {A} (a : A) : preserves (mret a).
Proof. intros st. done. Qed.

Lemma preserves_bind {A B} (m : H A) (k : A → H B) :
  preserves m → (∀ a, preserves (k a)) → preserves (m ≫= k).
Proof.
  intros Hm Hk st. unfold mbind, H_bind, bind.
  specialize (Hm st). destruct (m st) as [[a|e] st1]; simpl in *; [|done].
  etrans; [exact Hm|apply Hk].
Qed.

Lemma preserves_try_except {A} (m : H A) handles (handler : exn → H A) :
  preserves m → (∀ e, preserves (handler e)) → preserves (try_except m handles handler).
Proof.
  intros Hm Hh st. unfold try_except.
  specialize (Hm st). destruct (m st) as [[a|e] st1]; simpl in *; [done|].
  destruct (handles (exn_cls e)); [|done].
  etrans; [exact Hm|apply Hh].
Qed.

Lemma preserves_read {A} (f : gmap loc obj → result A) : preserves (read f).
Proof. intros st. done. Qed.

Lemma preserves_print line : preserves (print line).
Proof. intros st. done. Qed.

Lemma preserves_alloc o : preserves (alloc o).
Proof.
  intros st. unfold alloc. simpl.
  apply insert_subseteq, not_elem_of_dom, is_fresh.
Qed.

Lemma preserves_if {A} (b : bool) (m1 m2 : H A) :
  preserves m1 → preserves m2 → preserves (if b then m1 else m2).
Proof. by destruct b. Qed.

Ltac preserves_step :=
  lazymatch goal with
  | |- preserves (_ ≫= _) => apply preserves_bind; [|intros ?]
  | |- preserves (try_except _ _ _) => apply preserves_try_except; [|intros ?]
  | |- preserves (if _ then _ else _) => apply preserves_if
  | |- preserves (read _) => apply preserves_read
  | |- preserves (alloc _) => apply preserves_alloc
  | |- preserves (print _) => apply preserves_print
  | |- preserves (mret _) => apply preserves_ret
  end.

Lemma preserves_get_nested item outer inner : preserves (get_nested item outer inner).
Proof. unfold get_nested. repeat preserves_step. Qed.

Lemma preserves_get_nested_first item outer inner :
  preserves (get_nested_first item outer inner).
Proof. unfold get_nested_first. repeat preserves_step. Qed.

Lemma preserves_extract data idx : preserves (extract_required_fields data idx).
Proof.
  unfold extract_required_fields.
  repeat lazymatch goal with
         | |- preserves (get_nested _ _ _) => apply preserves_get_nested
         | |- preserves (get_nested_first _ _ _) => apply preserves_get_nested_first
         | |- _ => preserves_step
         end.
Qed.

End HeapFacts.

(** C9. Every object that is in memory when [extract_required_fields] is
    called is there, with the same contents, when it returns: the list
    [data], each observation in it, and whatever they refer to.  The call
    only adds objects (the defaults of the lookups and the record). *)
Theorem extract_leaves_objects_unchanged
    (data : Heap.val) (city_idx : Z) (st : Heap.state) (l : Heap.loc) (o : Heap.obj) :
  Heap.objects st !! l = Some o →
  Heap.objects (Heap.extract_required_fields data city_idx st).2 !! l = Some o.
Proof.
  intros Hl. eapply lookup_weaken; [exact Hl|].
  apply HeapFacts.preserves_extract.
Qed.

Lemma extract_leaves_objects_unchanged_witness :
  let st := Heap.State seattle_memory [] in
  let run := Heap.extract_required_fields (Heap.VRef 1) 0 st in
  Heap.objects run.2 !! 1%positive = Some (Heap.OList [Heap.VRef 2])
  ∧ Heap.objects run.2 !! 2%positive = seattle_memory !! 2%positive
  ∧ ∃ r, run.1 = Ret (Heap.VRef r) ∧ Heap.objects run.2 !! r = Some seattle_record_object.
Proof.
  cbv zeta. split; [|split].
  - apply extract_leaves_objects_unchanged. vm_compute. reflexivity.
  - etrans; [apply extract_leaves_objects_unchanged|]; vm_compute; reflexivity.
  - eexists. split; vm_compute; reflexivity.
Defined.

(** ** The two embeddings agree *)

Module Refinement.

Lemma denotes_mono h h' : h ⊆ h' → ∀ v pv, denotes h v pv → denotes h' v pv.
Proof.
  intros Hsub. fix IH 3. intros v pv Hd.
  destruct Hd as [| | | | |l items pitems Hl Hitems|l entries pentries Hl Hnone Hsome];
    try constructor.
  - apply denotes_List with items; [by eapply lookup_weaken|].
    clear Hl. induction Hitems as [|x y xs ys Hxy Hrest IHxs].
    + constructor.
    + constructor; [by apply IH|exact IHxs].
  - apply denotes_Dict with entries; [by eapply lookup_weaken|exact Hnone|].
    intros k v Hk. destruct (Hsome k v Hk) as (pv & Hpv & Hd).
    exists pv. split; [exact Hpv|by apply IH].
Qed.

Lemma denotes_type_name h v pv : denotes h v pv → Heap.type_name h v = type_name pv.
Proof. intros [| | | | |??? Hl _|??? Hl _ _]; simpl; try done; by rewrite Hl. Qed.

Lemma denotes_is_not_None h v pv : denotes h v pv → Heap.is_not_None v = is_not_None pv.
Proof. by intros []. Qed.

Lemma denotes_truthy h v pv : denotes h v pv → Heap.truthy h v = truthy pv.
Proof.
  intros [| | | | |l items pitems Hl Hitems|l entries pentries Hl Hnone Hsome];
    simpl; try done; rewrite Hl.
  - by destruct Hitems.
  - destruct (map_to_list entries) as [|[k x] rest] eqn:He.
    + apply map_to_list_empty_iff in He as ->.
      assert (pentries = ∅) as ->; [|by rewrite map_to_list_empty].
      apply map_eq. intros k. rewrite lookup_empty. apply Hnone, lookup_empty.
    + assert (entries !! k = Some x) as Hk.
      { apply elem_of_map_to_list. rewrite He. left. }
      destruct (Hsome k x Hk) as (pv' & Hpv & _).
      destruct (map_to_list pentries) as [|p rest'] eqn:Hp; [|done].
      apply map_to_list_empty_iff in Hp as ->. by rewrite lookup_empty in Hpv.
Qed.

Lemma get_refines h o po key d pd :
  denotes h o po → denotes h d pd →
  result_rel (denotes h) (Heap.get h o key d) (py_get po key pd).
Proof.
  intros Ho Hd. pose proof (denotes_type_name _ _ _ Ho) as Hname.
  unfold Heap.get, Heap.no_attribute_get.
  destruct Ho as [| | | | |l items pitems Hl Hitems|l entries pentries Hl Hnone Hsome];
    simpl in *; try done; rewrite Hl; simpl.
  - done.
  - destruct (entries !! key) as [v|] eqn:Hk.
    + destruct (Hsome key v Hk) as (pv & -> & Hv). exact Hv.
    + rewrite (Hnone key Hk). exact Hd.
Qed.

Lemma list_getitem_refines h (items : list Heap.val) (pitems : list pyval) i :
  Forall2 (denotes h) items pitems →
  result_rel (denotes h) (list_getitem items i) (list_getitem pitems i).
Proof.
  intros Hitems. unfold list_getitem.
  rewrite <- (Forall2_length _ _ _ Hitems).
  destruct (normalize_index _ i) as [n|]; simpl; [|done].
  destruct (items !! n) as [v|] eqn:Hv.
  - destruct (Forall2_lookup_l _ _ _ _ _ Hitems Hv) as (pv & -> & Hd). exact Hd.
  - destruct (pitems !! n) as [pv|] eqn:Hpv; [|done].
    destruct (Forall2_lookup_r _ _ _ _ _ Hitems Hpv) as (v & Hv' & _). congruence.
Qed.

Lemma getitem_refines h o po i :
  denotes h o po → result_rel (denotes h) (Heap.getitem h o i) (py_getitem po i).
Proof.
  intros Ho. pose proof (denotes_type_name _ _ _ Ho) as Hname.
  destruct Ho as [| | | |s|l items pitems Hl Hitems|l entries pentries Hl Hnone Hsome];
    simpl in *; try done; rewrite ?Hl; simpl; try done.
  - destruct (str_getitem s i); simpl; [constructor|done].
  - by apply list_getitem_refines.
Qed.

Lemma utcfromtimestamp_refines h v pv :
  denotes h v pv → Heap.utcfromtimestamp h v = utcfromtimestamp pv.
Proof.
  intros Hv. pose proof (denotes_type_name _ _ _ Hv) as Hname.
  unfold Heap.utcfromtimestamp, utcfromtimestamp.
  destruct Hv; simpl in *; try done; by rewrite Hname.
Qed.

Lemma simulates_read {A B} (R : gmap Heap.loc Heap.obj → A → B → Prop)
    (f : gmap Heap.loc Heap.obj → result A) (r : result B) st :
  result_rel (R (Heap.objects st)) (f (Heap.objects st)) r →
  simulates R (Heap.read f) st r.
Proof.
  intros Hrel. exists st. split; [done|split; [done|]]. unfold Heap.read.
  destruct (f (Heap.objects st)) as [a|e], r as [b|e']; simpl in *; try done.
  - by exists a.
  - by subst.
Qed.

(** The state after [alloc]: the new object sits at a location that was
    free, and every other object is where it was. *)
Lemma alloc_spec o st :
  ∃ l, Heap.alloc o st
       = (Ret (Heap.VRef l), Heap.State (<[l := o]> (Heap.objects st)) (Heap.printed st))
       ∧ Heap.objects st !! l = None
       ∧ Heap.objects st ⊆ <[l := o]> (Heap.objects st).
Proof.
  exists (fresh (dom (Heap.objects st))).
  assert (Heap.objects st !! fresh (dom (Heap.objects st)) = None) as Hfresh
    by apply not_elem_of_dom, is_fresh.
  split; [done|split; [done|by apply insert_subseteq]].
Qed.

Lemma denotes_empty_dict h l :
  h !! l = Some (Heap.ODict ∅) → denotes h (Heap.VRef l) (PDict ∅).
Proof.
  intros Hl. apply denotes_Dict with ∅; [done|done|].
  intros k v Hk. by rewrite lookup_empty in Hk.
Qed.

Lemma attr_get_refines h o po :
  denotes h o po →
  match Heap.attr_get h o with
  | Ret _ => True
  | Raise e => ∀ key dflt, py_get po key dflt = Raise e
  end.
Proof.
  intros Ho. pose proof (denotes_type_name _ _ _ Ho) as Hname.
  unfold Heap.attr_get, Heap.no_attribute_get.
  destruct Ho as [| | | | |l items pitems Hl Hitems|l entries pentries Hl Hnone Hsome];
    simpl in *; try done; rewrite Hl; simpl; [|done].
  by intros key dflt.
Qed.

(** What the two nested lookups do to the store, and what they return. *)
Lemma get_nested_run item outer inner st :
  match Heap.attr_get (Heap.objects st) item with
  | Raise e => Heap.get_nested item outer inner st = (Raise e, st)
  | Ret _ =>
      ∃ l, Heap.objects st !! l = None
           ∧ let h := <[l := Heap.ODict ∅]> (Heap.objects st) in
             Heap.get_nested item outer inner st
             = (Heap.get h item outer (Heap.VRef l) ≫= (λ o, Heap.get h o inner Heap.VNone),
                Heap.State h (Heap.printed st))
  end.
Proof.
  unfold Heap.get_nested, mbind, Heap.H_bind, Heap.bind, result_bind, rbind.
  change (Heap.read (λ h, Heap.attr_get h item) st)
    with (Heap.attr_get (Heap.objects st) item, st).
  destruct (Heap.attr_get (Heap.objects st) item) as [[]|e]; [|done].
  destruct (alloc_spec (Heap.ODict ∅) st) as (l & Halloc & Hfree & _).
  exists l. split; [exact Hfree|]. cbv zeta.
  rewrite Halloc. unfold Heap.read. simpl.
  by destruct (Heap.get _ item outer _).
Qed.

Lemma get_nested_first_run item outer inner st :
  match Heap.attr_get (Heap.objects st) item with
  | Raise e => Heap.get_nested_first item outer inner st = (Raise e, st)
  | Ret _ =>
      ∃ l l', Heap.objects st !! l = None
              ∧ <[l := Heap.ODict ∅]> (Heap.objects st) !! l' = None
              ∧ let h := <[l' := Heap.OList [Heap.VRef l]]>
                           (<[l := Heap.ODict ∅]> (Heap.objects st)) in
                Heap.get_nested_first item outer inner st
                = (Heap.get h item outer (Heap.VRef l') ≫= (λ o,
                   Heap.getitem h o 0 ≫= (λ first,
                   Heap.get h first inner Heap.VNone)),
                   Heap.State h (Heap.printed st))
  end.
Proof.
  unfold Heap.get_nested_first, mbind, Heap.H_bind, Heap.bind, result_bind, rbind.
  change (Heap.read (λ h, Heap.attr_get h item) st)
    with (Heap.attr_get (Heap.objects st) item, st).
  destruct (Heap.attr_get (Heap.objects st) item) as [[]|e]; [|done].
  destruct (alloc_spec (Heap.ODict ∅) st) as (l & Halloc & Hfree & _).
  destruct (alloc_spec (Heap.OList [Heap.VRef l])
              (Heap.State (<[l := Heap.ODict ∅]> (Heap.objects st)) (Heap.printed st)))
    as (l' & Halloc' & Hfree' & _).
  exists l, l'. split; [exact Hfree|split; [exact Hfree'|]]. cbv zeta.
  rewrite Halloc, Halloc'. unfold Heap.read. simpl.
  destruct (Heap.get _ item outer _) as [o|]; [|done].
  by destruct (Heap.getitem _ o 0).
Qed.

Lemma result_rel_bind {A A' B B'} (R : A → A' → Prop) (S : B → B' → Prop)
    (r : result A) (r' : result A') (k : A → result B) (k' : A' → result B') :
  result_rel R r r' → (∀ a a', R a a' → result_rel S (k a) (k' a')) →
  result_rel S (r ≫= k) (r' ≫= k').
Proof.
  unfold mbind, result_bind, rbind.
  destruct r, r'; simpl; try done. intros HR Hk. by apply Hk.
Qed.

Lemma simulates_intro {A B} (R : gmap Heap.loc Heap.obj → A → B → Prop)
    (m : Heap.H A) st (r0 : result A) st' (r : result B) :
  m st = (r0, st') →
  Heap.objects st ⊆ Heap.objects st' →
  Heap.printed st' = Heap.printed st →
  result_rel (R (Heap.objects st')) r0 r →
  simulates R m st r.
Proof.
  intros Hrun Hsub Hprinted Hrel. exists st'. split; [done|split; [done|]].
  rewrite Hrun. destruct r0 as [a|e], r as [b|e']; simpl in *; try done.
  - by exists a.
  - by subst.
Qed.

Lemma get_nested_simulates item pitem outer inner st :
  denotes (Heap.objects st) item pitem →
  simulates denotes (Heap.get_nested item outer inner) st (get_nested pitem outer inner).
Proof.
  intros Hitem.
  pose proof (attr_get_refines _ _ _ Hitem) as Hattr.
  pose proof (get_nested_run item outer inner st) as Hrun.
  destruct (Heap.attr_get (Heap.objects st) item) as [[]|e]; cycle 1.
  { eapply simulates_intro; [exact Hrun|done|done|].
    unfold get_nested. by rewrite Hattr. }
  destruct Hrun as (l & Hfree & Hrun). cbv zeta in Hrun.
  assert (Heap.objects st ⊆ <[l := Heap.ODict ∅]> (Heap.objects st)) as Hsub
    by by apply insert_subseteq.
  eapply simulates_intro; [exact Hrun|exact Hsub|done|]. simpl.
  apply (denotes_mono _ _ Hsub) in Hitem.
  unfold get_nested.
  eapply result_rel_bind.
  - apply get_refines; [exact Hitem|]. apply denotes_empty_dict, lookup_insert_eq.
  - intros o po Ho. apply get_refines; [exact Ho|constructor].
Qed.

Lemma get_nested_first_simulates item pitem outer inner st :
  denotes (Heap.objects st) item pitem →
  simulates denotes (Heap.get_nested_first item outer inner) st
    (get_nested_first pitem outer inner).
Proof.
  intros Hitem.
  pose proof (attr_get_refines _ _ _ Hitem) as Hattr.
  pose proof (get_nested_first_run item outer inner st) as Hrun.
  destruct (Heap.attr_get (Heap.objects st) item) as [[]|e]; cycle 1.
  { eapply simulates_intro; [exact Hrun|done|done|].
    unfold get_nested_first. by rewrite Hattr. }
  destruct Hrun as (l & l' & Hfree & Hfree' & Hrun). cbv zeta in Hrun.
  assert (Heap.objects st ⊆ <[l := Heap.ODict ∅]> (Heap.objects st)) as Hsub
    by by apply insert_subseteq.
  assert (<[l := Heap.ODict ∅]> (Heap.objects st)
          ⊆ <[l' := Heap.OList [Heap.VRef l]]> (<[l := Heap.ODict ∅]> (Heap.objects st)))
    as Hsub' by by apply insert_subseteq.
  eapply simulates_intro; [exact Hrun|by etrans|done|]. simpl.
  apply (denotes_mono _ _ Hsub), (denotes_mono _ _ Hsub') in Hitem.
  unfold get_nested_first.
  eapply result_rel_bind; [|intros o po Ho; eapply result_rel_bind].
  - apply get_refines; [exact Hitem|].
    apply denotes_List with [Heap.VRef l]; [apply lookup_insert_eq|].
    repeat constructor.
    apply (denotes_mono _ _ Hsub'), denotes_empty_dict, lookup_insert_eq.
  - by apply getitem_refines.
  - intros first pfirst Hfirst. apply get_refines; [exact Hfirst|constructor].
Qed.

Lemma body_simulates_bind {A B} (R : gmap Heap.loc Heap.obj → A → B → Prop) city_idx
    (m : Heap.H A) (k : A → Heap.H Heap.val) (r : result B) (k' : B → result fields) st :
  simulates R m st r →
  (∀ a b st', Heap.objects st ⊆ Heap.objects st' →
              Heap.printed st' = Heap.printed st →
              R (Heap.objects st') a b →
              body_simulates city_idx (k a) st' (k' b)) →
  body_simulates city_idx (m ≫= k) st (r ≫= k').
Proof.
  intros (st1 & Hsub & Hprinted & Hm) Hk. unfold body_simulates.
  destruct r as [b|e].
  - destruct Hm as (a & Hrun & HR).
    destruct (Hk a b st1 Hsub Hprinted HR) as (st2 & Hsub2 & Hbody).
    exists st2. split; [by etrans|].
    assert ((m ≫= k) st = k a st1) as ->
      by (unfold mbind, Heap.H_bind, Heap.bind; by rewrite Hrun).
    change (Ret b ≫= k') with (k' b). rewrite <- Hprinted. exact Hbody.
  - exists st1. split; [done|].
    change (Raise e ≫= k') with (@Raise fields e).
    split; [|done]. unfold mbind, Heap.H_bind, Heap.bind. by rewrite Hm.
Qed.

Lemma denotes_list_to_map h (l : list (string * Heap.val)) (pl : list (string * pyval)) :
  Forall2 (λ x y, x.1 = y.1 ∧ denotes h x.2 y.2) l pl →
  (∀ k, (list_to_map l : gmap string Heap.val) !! k = None
        → (list_to_map pl : Dict) !! k = None)
  ∧ (∀ k v, (list_to_map l : gmap string Heap.val) !! k = Some v
            → ∃ pv, (list_to_map pl : Dict) !! k = Some pv ∧ denotes h v pv).
Proof.
  induction 1 as [|[k0 v0] [k0' pv0] l pl [Hkey Hval] _ [IHnone IHsome]]; simpl in *.
  - split; [done|]. intros k v Hk. by rewrite lookup_empty in Hk.
  - subst k0'. split.
    + intros k Hk. apply lookup_insert_None in Hk as [Hk Hne].
      apply lookup_insert_None. split; [by apply IHnone|done].
    + intros k v Hk. destruct (decide (k0 = k)) as [->|Hne].
      * rewrite lookup_insert_eq in Hk. injection Hk as <-.
        exists pv0. by rewrite lookup_insert_eq.
      * rewrite lookup_insert_ne in Hk by done.
        rewrite lookup_insert_ne by done. by apply IHsome.
Qed.

(** The end of the [try] block: the test of the essential values, and the
    record or the skip message. *)
Lemma finish_simulates city_idx st city country temp feels wmain wdesc hum wind
    pcity pcountry ptemp pfeels pwmain pwdesc phum pwind timestamp_str :
  let h := Heap.objects st in
  denotes h city pcity → denotes h country pcountry → denotes h temp ptemp →
  denotes h feels pfeels → denotes h wmain pwmain → denotes h wdesc pwdesc →
  denotes h hum phum → denotes h wind pwind →
  body_simulates city_idx
    (essential ← Heap.read (λ h, Ret (Heap.truthy h city && Heap.truthy h country
                                      && Heap.is_not_None temp));
     if essential : bool then
       Heap.alloc (Heap.ODict (list_to_map [
         ("city", city); ("country", country); ("temp_celsius", temp);
         ("feels_like_celsius", feels); ("weather_main", wmain);
         ("weather_desc", wdesc); ("humidity", hum); ("wind_speed", wind);
         ("timestamp_utc", Heap.VStr timestamp_str)]))
     else
       Heap.print (missing_essential_message city_idx);;
       mret Heap.VNone)
    st
    (Ret (Fields pcity pcountry ptemp pfeels pwmain pwdesc phum pwind timestamp_str)).
Proof.
  intros h Hcity Hcountry Htemp Hfeels Hwmain Hwdesc Hhum Hwind. subst h.
  unfold body_simulates.
  change (essential_present _)
    with (truthy pcity && truthy pcountry && is_not_None ptemp).
  match goal with |- context [Heap.alloc ?x] => set (o := x) end.
  set (f := Fields _ _ _ _ _ _ _ _ _).
  set (body := (_ ≫= _)).
  assert (body st =
          if truthy pcity && truthy pcountry && is_not_None ptemp
          then Heap.alloc o st
          else (Ret Heap.VNone,
                Heap.State (Heap.objects st)
                  (Heap.printed st ++ [missing_essential_message city_idx])))
    as Hrun.
  { subst body. unfold mbind, Heap.H_bind, Heap.bind, Heap.read.
    rewrite (denotes_truthy _ _ _ Hcity), (denotes_truthy _ _ _ Hcountry),
      (denotes_is_not_None _ _ _ Htemp).
    by destruct (truthy pcity && truthy pcountry && is_not_None ptemp). }
  rewrite Hrun. clear Hrun body.
  destruct (truthy pcity && truthy pcountry && is_not_None ptemp).
  - destruct (alloc_spec o st) as (l & -> & Hfree & Hsub).
    exists (Heap.State (<[l := o]> (Heap.objects st)) (Heap.printed st)).
    split; [exact Hsub|]. exists l. split; [done|split; [done|]].
    cbn [Heap.objects]. subst o f. unfold record_of.
    cbn [f_city f_country f_temp_celsius f_feels_like_celsius f_weather_main
           f_weather_desc f_humidity f_wind_speed f_timestamp_str].
    lazymatch goal with
    | |- denotes ?h' _ (PDict (list_to_map ?pl)) =>
        lazymatch type of Hsub with
        | _ ⊆ <[_ := Heap.ODict (list_to_map ?hl)]> _ =>
            destruct (denotes_list_to_map h' hl pl) as [Hnone Hsome]
        end
    end.
    { repeat (constructor; [split; [done|]; cbn [snd];
                            try (by eapply denotes_mono); constructor|]).
      constructor. }
    eapply denotes_Dict; [apply lookup_insert_eq|exact Hnone|exact Hsome].
  - eexists. split; [|split; reflexivity]. done.
Qed.

Lemma body_refines data pdata city_idx st :
  denotes (Heap.objects st) data (PList pdata) →
  body_simulates city_idx
    (item ← Heap.read (λ h, Heap.getitem h data city_idx);
     city ← Heap.read (λ h, Heap.get h item "name" Heap.VNone);
     country ← Heap.get_nested item "sys" "country";
     temp_celsius ← Heap.get_nested item "main" "temp";
     feels_like_celsius ← Heap.get_nested item "main" "feels_like";
     weather_main ← Heap.get_nested_first item "weather" "main";
     weather_desc ← Heap.get_nested_first item "weather" "description";
     humidity ← Heap.get_nested item "main" "humidity";
     wind_speed ← Heap.get_nested item "wind" "speed";
     timestamp_utc ← Heap.read (λ h, Heap.get h item "dt" Heap.VNone);
     dt ← Heap.read (λ h, Heap.utcfromtimestamp h timestamp_utc);
     let timestamp_str := Calendar.strftime dt in
     essential ← Heap.read (λ h, Ret (Heap.truthy h city && Heap.truthy h country
                                      && Heap.is_not_None temp_celsius));
     if essential : bool then
       Heap.alloc (Heap.ODict (list_to_map [
         ("city", city);
         ("country", country);
         ("temp_celsius", temp_celsius);
         ("feels_like_celsius", feels_like_celsius);
         ("weather_main", weather_main);
         ("weather_desc", weather_desc);
         ("humidity", humidity);
         ("wind_speed", wind_speed);
         ("timestamp_utc", Heap.VStr timestamp_str)]))
     else
       Heap.print (missing_essential_message city_idx);;
       mret Heap.VNone)
    st (read_fields pdata city_idx).
Proof.
  intros Hdata. unfold read_fields.
  (* data[city_idx] *)
  eapply (body_simulates_bind denotes).
  { apply simulates_read. exact (getitem_refines _ _ _ city_idx Hdata). }
  intros item pitem st1 _ _ Hitem.
  (* item.get("name") *)
  eapply (body_simulates_bind denotes).
  { apply simulates_read. apply get_refines; [exact Hitem|constructor]. }
  intros city pcity st2 Hsub2 _ Hcity.
  apply (denotes_mono _ _ Hsub2) in Hitem.
  (* the seven nested lookups *)
  eapply (body_simulates_bind denotes); [by apply get_nested_simulates|].
  intros country pcountry st3 Hsub3 _ Hcountry.
  apply (denotes_mono _ _ Hsub3) in Hitem, Hcity.
  eapply (body_simulates_bind denotes); [by apply get_nested_simulates|].
  intros temp ptemp st4 Hsub4 _ Htemp.
  apply (denotes_mono _ _ Hsub4) in Hitem, Hcity, Hcountry.
  eapply (body_simulates_bind denotes); [by apply get_nested_simulates|].
  intros feels pfeels st5 Hsub5 _ Hfeels.
  apply (denotes_mono _ _ Hsub5) in Hitem, Hcity, Hcountry, Htemp.
  eapply (body_simulates_bind denotes); [by apply get_nested_first_simulates|].
  intros wmain pwmain st6 Hsub6 _ Hwmain.
  apply (denotes_mono _ _ Hsub6) in Hitem, Hcity, Hcountry, Htemp, Hfeels.
  eapply (body_simulates_bind denotes); [by apply get_nested_first_simulates|].
  intros wdesc pwdesc st7 Hsub7 _ Hwdesc.
  apply (denotes_mono _ _ Hsub7) in Hitem, Hcity, Hcountry, Htemp, Hfeels, Hwmain.
  eapply (body_simulates_bind denotes); [by apply get_nested_simulates|].
  intros hum phum st8 Hsub8 _ Hhum.
  apply (denotes_mono _ _ Hsub8) in Hitem, Hcity, Hcountry, Htemp, Hfeels, Hwmain, Hwdesc.
  eapply (body_simulates_bind denotes); [by apply get_nested_simulates|].
  intros wind pwind st9 Hsub9 _ Hwind.
  apply (denotes_mono _ _ Hsub9)
    in Hitem, Hcity, Hcountry, Htemp, Hfeels, Hwmain, Hwdesc, Hhum.
  (* item.get("dt") and its conversion *)
  eapply (body_simulates_bind denotes).
  { apply simulates_read. apply get_refines; [exact Hitem|constructor]. }
  intros ts pts st10 Hsub10 _ Hts.
  apply (denotes_mono _ _ Hsub10)
    in Hcity, Hcountry, Htemp, Hfeels, Hwmain, Hwdesc, Hhum, Hwind.
  eapply (body_simulates_bind (λ _, eq)).
  { apply simulates_read. rewrite (utcfromtimestamp_refines _ _ _ Hts).
    by destruct (utcfromtimestamp pts). }
  intros dt ? st11 Hsub11 _ <-.
  apply (denotes_mono _ _ Hsub11)
    in Hcity, Hcountry, Htemp, Hfeels, Hwmain, Hwdesc, Hhum, Hwind.
  by apply finish_simulates.
Qed.

End Refinement.

(** The embedding on the store computes what the embedding on values
    computes: started on a list object that denotes [pdata], it returns a
    value that denotes the value returned for [pdata], and prints the same
    lines. *)
Theorem heap_extract_refines
    (data : Heap.val) (pdata : list pyval) (city_idx : Z) (st : Heap.state) (w : World) :
  denotes (Heap.objects st) data (PList pdata) →
  let hrun := Heap.extract_required_fields data city_idx st in
  let run := extract_required_fields pdata city_idx w in
  ∃ v pv lines,
    hrun.1 = Ret v ∧ run.1 = Ret pv
    ∧ denotes (Heap.objects hrun.2) v pv
    ∧ Heap.printed hrun.2 = Heap.printed st ++ lines
    ∧ stdout run.2 = stdout w ++ lines.
Proof.
  intros Hdata. cbv zeta. rewrite extract_required_fields_spec.
  pose proof (Refinement.body_refines data pdata city_idx st Hdata) as Hbody.
  lazymatch type of Hbody with
  | body_simulates _ ?body _ _ =>
      change (Heap.extract_required_fields data city_idx)
        with (Heap.try_except body is_Exception
                (λ e, Heap.print (extraction_failed_message e);; mret Heap.VNone));
      set (m := body) in *
  end.
  unfold Heap.try_except.
  destruct Hbody as (st' & Hsub & Hbody).
  pose proof (read_fields_raises pdata city_idx) as Hexn.
  destruct (read_fields pdata city_idx) as [f|e].
  - destruct (essential_present f).
    + destruct Hbody as (l & -> & Hprinted & Hden).
      exists (Heap.VRef l), (PDict (record_of f)), []. simpl.
      by rewrite !app_nil_r.
    + destruct Hbody as (-> & Hprinted).
      exists Heap.VNone, PNone, [missing_essential_message city_idx].
      cbn [fst snd]. unfold emit. rewrite stdout_emits.
      repeat split; [constructor|done].
  - destruct Hbody as (-> & Hprinted). rewrite (Hexn e eq_refl).
    exists Heap.VNone, PNone, [extraction_failed_message e].
    cbn [fst snd]. unfold emit. rewrite stdout_emits.
    unfold mbind, Heap.H_bind, Heap.bind, Heap.print. cbn [fst snd Heap.printed].
    rewrite Hprinted. repeat split; constructor.
Qed.

(** The example in memory denotes the example. *)
Lemma seattle_memory_denotes :
  denotes seattle_memory (Heap.VRef 1) (PList [seattle]).
Proof.
  assert (∀ l (hl : list (string * Heap.val)) (pl : list (string * pyval)),
            seattle_memory !! l = Some (Heap.ODict (list_to_map hl)) →
            Forall2 (λ x y, x.1 = y.1 ∧ denotes seattle_memory x.2 y.2) hl pl →
            denotes seattle_memory (Heap.VRef l) (PDict (list_to_map pl))) as Hdict.
  { intros l hl pl Hl Hrel.
    destruct (Refinement.denotes_list_to_map _ _ _ Hrel) as [Hnone Hsome].
    by eapply denotes_Dict. }
  eapply denotes_List; [reflexivity|].
  constructor; [|constructor].
  unfold seattle, seattle_entries.
  eapply (Hdict 2%positive); [reflexivity|].
  repeat (constructor; [split; [reflexivity|]; cbn [snd]|]); try constructor.
  - eapply (Hdict 3%positive); [reflexivity|]. repeat constructor.
  - eapply (Hdict 4%positive); [reflexivity|]. repeat constructor.
  - eapply denotes_List; [reflexivity|].
    constructor; [|constructor].
    eapply (Hdict 6%positive); [reflexivity|]. repeat constructor.
  - eapply (Hdict 7%positive); [reflexivity|]. repeat constructor.
Qed.

(** * Further properties *)

(** ** The retry loop, attempt by attempt *)

Lemma for_each_app {A R} (xs ys : list A) (body : A → M (option R)) w :
  for_each (xs ++ ys) body w =
    match for_each xs body w with
    | (Ret None, w') => for_each ys body w'
    | other => other
    end.
Proof.
  revert w. induction xs as [|x xs IH]; intros w; simpl; [done|].
  unfold mbind, M_bind, bind. destruct (body x w) as [[[v|]|e] w1]; [done| |done].
  apply IH.
Qed.

(** After [k] failed attempts the loop is where it would be had it started
    at attempt [k], with the failures in the trace. *)
Lemma for_each_skip_failures city api_key bf (failure : nat → exn) n k w :
  (0 <= bf)%Q → (k ≤ n)%nat →
  (∀ j, (j < k)%nat →
     network w (length (requests w) + j) (weather_request city api_key)
       = Raise (failure j)
     ∧ is_RequestException (exn_cls (failure j)) = true) →
  for_each (Z.of_nat <$> seq 0 n)
    (fetch_iteration city WEATHER_URL (weather_params city api_key) bf) w
  = for_each (Z.of_nat <$> seq k (n - k))
      (fetch_iteration city WEATHER_URL (weather_params city api_key) bf)
      (emits (concat (failed_attempt (weather_request city api_key) bf failure
                        <$> seq 0 k)) w).
Proof.
  intros Hbf Hk Hfail.
  replace n with (k + (n - k))%nat at 1 by lia.
  rewrite seq_app, fmap_app, for_each_app.
  by rewrite (for_each_all_fail city api_key bf failure k Hbf 0%nat w Hfail).
Qed.

(** The attempt that ends a call: after [k] failed attempts, an attempt
    whose outcome is not a caught exception decides what the call returns
    or raises, and nothing follows it. *)
Lemma fetch_last_attempt city api_key retries bf (failure : nat → exn) k w res :
  (0 <= bf)%Q → (k < Z.to_nat retries)%nat →
  (∀ j, (j < k)%nat →
     network w (length (requests w) + j) (weather_request city api_key)
       = Raise (failure j)
     ∧ is_RequestException (exn_cls (failure j)) = true) →
  let req := weather_request city api_key in
  let o := attempt_outcome city (network w (length (requests w) + k) req) in
  final_result o.1 = Some res →
  fetch_raw_weather_data_for_city city api_key retries bf w
  = (res, emits (concat (failed_attempt req bf failure <$> seq 0 k)
                 ++ Requested req :: o.2) w).
Proof.
  intros Hbf Hk Hfail req o Hres.
  unfold fetch_raw_weather_data_for_city, range.
  unfold mbind at 1, M_bind at 1, bind at 1.
  rewrite (for_each_skip_failures city api_key bf failure _ k w Hbf) by (lia || done).
  destruct (Z.to_nat retries - k)%nat as [|m] eqn:Hm; [lia|]. simpl.
  unfold mbind at 1, M_bind at 1, bind at 1.
  rewrite fetch_iteration_spec. cbv zeta.
  fold (weather_request city api_key). fold req.
  rewrite network_emits, requests_emits, requests_of_failed_attempts, length_app,
    length_replicate, length_seq.
  fold o. destruct o as [[[v|]|e] evs]; simpl in Hres; simplify_eq; simpl.
  - by run.
  - by rewrite emits_emits.
Qed.







(** ** What a call never does *)

(** One iteration sends one request and sleeps at most once. *)
Lemma fetch_iteration_events city api_key bf attempt w :
  let req := weather_request city api_key in
  ∃ evs, (fetch_iteration city WEATHER_URL (weather_params city api_key) bf attempt w).2
         = emits (Requested req :: evs) w
         ∧ requests_of evs = []
         ∧ (length (sleeps_of evs) ≤ 1)%nat.
Proof.
  cbv zeta. rewrite fetch_iteration_spec. cbv zeta.
  fold (weather_request city api_key).
  destruct (attempt_outcome_prints_only city
              (network w (length (requests w)) (weather_request city api_key)))
    as [Hreq Hsleep].
  destruct (attempt_outcome _ _) as [[[v|]|e] evs]; simpl in *;
    try destruct (Qle_bool 0 (backoff bf attempt)); simpl;
    eexists; (split; [reflexivity|]);
    rewrite ?requests_of_app, ?sleeps_of_app, ?Hreq, ?Hsleep; simpl; split; (done || lia).
Qed.

Lemma for_each_bounds city api_key bf n : ∀ s w r w',
  for_each (Z.of_nat <$> seq s n)
    (fetch_iteration city WEATHER_URL (weather_params city api_key) bf) w = (r, w') →
  ∃ evs m, w' = emits evs w
           ∧ requests_of evs = replicate m (weather_request city api_key)
           ∧ (m ≤ n)%nat
           ∧ (length (sleeps_of evs) ≤ m)%nat.
Proof.
  induction n as [|n IH]; intros s w r w' Hrun; simpl in Hrun.
  - injection Hrun as <- <-. exists [], 0%nat. by rewrite emits_nil.
  - unfold mbind, M_bind, bind in Hrun.
    destruct (fetch_iteration_events city api_key bf (Z.of_nat s) w)
      as (evs1 & Hw1 & Hreq1 & Hsleep1).
    destruct (fetch_iteration _ _ _ _ _ w) as [it w1] eqn:Hit. simpl in Hw1. subst w1.
    assert (∃ evs m, w' = emits evs (emits (Requested (weather_request city api_key) :: evs1) w)
                     ∧ requests_of evs = replicate m (weather_request city api_key)
                     ∧ (m ≤ n)%nat ∧ (length (sleeps_of evs) ≤ m)%nat)
      as (evs & m & -> & Hreq & Hm & Hsleep).
    { destruct it as [[v|]|e].
      - injection Hrun as <- <-. exists [], 0%nat. rewrite emits_nil.
        repeat split; simpl; lia.
      - by apply (IH (S s) _ r w').
      - injection Hrun as <- <-. exists [], 0%nat. rewrite emits_nil.
        repeat split; simpl; lia. }
    exists ((Requested (weather_request city api_key) :: evs1) ++ evs), (S m).
    rewrite emits_emits. split; [done|].
    change (requests_of ((Requested (weather_request city api_key) :: evs1) ++ evs))
      with (weather_request city api_key :: requests_of (evs1 ++ evs)).
    change (sleeps_of ((Requested (weather_request city api_key) :: evs1) ++ evs))
      with (sleeps_of (evs1 ++ evs)).
    rewrite requests_of_app, sleeps_of_app, length_app, Hreq1, Hreq. simpl.
    repeat split; lia.
Qed.

(** What a call adds to the trace. *)
Lemma fetch_events city api_key retries bf w :
  ∃ evs m, (fetch_raw_weather_data_for_city city api_key retries bf w).2 = emits evs w
           ∧ requests_of evs = replicate m (weather_request city api_key)
           ∧ (m ≤ Z.to_nat retries)%nat
           ∧ (length (sleeps_of evs) ≤ m)%nat.
Proof.
  unfold fetch_raw_weather_data_for_city, range, mbind, M_bind, bind.
  destruct (for_each _ _ w) as [r w1] eqn:Hrun.
  apply for_each_bounds in Hrun as (evs & m & -> & Hreq & Hm & Hsleep).
  destruct r as [[v|]|e]; run.
  - by exists evs, m.
  - exists (evs ++ [Printed (fetch_failed_message city retries)]), m.
    rewrite requests_of_app, sleeps_of_app, Hreq. simpl. by rewrite !app_nil_r.
  - by exists evs, m.
Qed.

(** X4. Whatever the network does, a call sends at most [retries]
    requests, all of them the same one (the weather endpoint, with the
    city, the key and metric units, and a timeout of 5 seconds), and it
    never sleeps more often than it has sent a request; the environment is
    left as it is. *)
Theorem fetch_sends_at_most_retries
    (city api_key : string) (retries : Z) (bf : Q) (w : World) :
  let run := fetch_raw_weather_data_for_city city api_key retries bf w in
  ∃ m, (m ≤ Z.to_nat retries)%nat
       ∧ requests run.2
         = requests w
           ++ replicate m (Request "https://api.openweathermap.org/data/2.5/weather"
                             [("q", city); ("appid", api_key); ("units", "metric")] 5)
       ∧ (length (sleeps run.2) ≤ length (sleeps w) + m)%nat
       ∧ environ run.2 = environ w
       ∧ network run.2 = network w.
Proof.
  cbv zeta.
  destruct (fetch_events city api_key retries bf w) as (evs & m & -> & Hreq & Hm & Hsleep).
  exists m. rewrite requests_emits, sleeps_emits, length_app, Hreq.
  repeat split; (done || lia).
Qed.

Lemma attempt_outcome_Some city o v :
  (attempt_outcome city o).1 = Ret (Some v) →
  v = PNone ∨ ∃ resp, o = Ret resp ∧ status_code resp = 200 ∧ json resp = Ret v.
Proof.
  unfold attempt_outcome, caught. destruct o as [resp|e].
  - destruct (Z.eqb_spec (status_code resp) 200) as [Hs|Hs]; simpl.
    + destruct (json resp) as [data|e] eqn:Hjson; simpl.
      * intros [= ->]. right. by exists resp.
      * by destruct (is_RequestException (exn_cls e)).
    + intros [= <-]. by left.
  - by destruct (is_RequestException (exn_cls e)).
Qed.

Lemma fetch_iteration_Some city api_key bf attempt w v :
  (fetch_iteration city WEATHER_URL (weather_params city api_key) bf attempt w).1
  = Ret (Some v) →
  v = PNone
  ∨ ∃ resp, network w (length (requests w)) (weather_request city api_key) = Ret resp
            ∧ status_code resp = 200 ∧ json resp = Ret v.
Proof.
  rewrite fetch_iteration_spec. cbv zeta. fold (weather_request city api_key).
  intros Hit. apply (attempt_outcome_Some city).
  destruct (attempt_outcome _ _) as [[[v'|]|e] evs]; simpl in *; try done.
  by destruct (Qle_bool 0 (backoff bf attempt)).
Qed.

Lemma for_each_Some city api_key bf n : ∀ s w v w',
  for_each (Z.of_nat <$> seq s n)
    (fetch_iteration city WEATHER_URL (weather_params city api_key) bf) w
  = (Ret (Some v), w') →
  v = PNone
  ∨ ∃ k resp, (k < n)%nat
              ∧ network w (length (requests w) + k) (weather_request city api_key) = Ret resp
              ∧ status_code resp = 200 ∧ json resp = Ret v.
Proof.
  induction n as [|n IH]; intros s w v w' Hrun; simpl in Hrun; [done|].
  unfold mbind, M_bind, bind in Hrun.
  pose proof (fetch_iteration_Some city api_key bf (Z.of_nat s) w) as Hsome.
  destruct (fetch_iteration_requests city api_key bf (Z.of_nat s) w)
    as (Hnet & Hreq & _).
  destruct (fetch_iteration _ _ _ _ _ w) as [[[v1|]|e] w1]; simpl in *; try done.
  - injection Hrun as -> <-.
    destruct (Hsome v eq_refl) as [->|(resp & ? & ? & ?)]; [by left|].
    right. exists 0%nat, resp. rewrite Nat.add_0_r. repeat split; (done || lia).
  - destruct (IH _ _ _ _ Hrun) as [->|(k & resp & Hk & Hk' & ? & ?)]; [by left|].
    right. exists (S k), resp.
    rewrite Hnet, Hreq, length_app in Hk'. simpl in Hk'.
    replace (length (requests w) + S k)%nat
      with (length (requests w) + 1 + k)%nat by lia.
    repeat split; (done || lia).
Qed.

(** X5. Data comes from a 200 response only: whenever a call returns
    something other than [None], one of its attempts received a response
    with status 200, and what is returned is the parsed body of that
    response. *)
Theorem fetch_returns_body_of_200
    (city api_key : string) (retries : Z) (bf : Q) (w : World) (v : pyval) :
  (fetch_raw_weather_data_for_city city api_key retries bf w).1 = Ret v →
  v ≠ PNone →
  ∃ k resp, (k < Z.to_nat retries)%nat
            ∧ network w (length (requests w) + k) (weather_request city api_key) = Ret resp
            ∧ status_code resp = 200
            ∧ json resp = Ret v.
Proof.
  unfold fetch_raw_weather_data_for_city, range.
  unfold mbind at 1, M_bind at 1, bind at 1.
  destruct (for_each _ _ w) as [[[v'|]|e] w1] eqn:Hrun; run; intros [= ->] Hv; [|done].
  by destruct (for_each_Some _ _ _ _ _ _ _ _ Hrun) as [->|?].
Qed.

Lemma fetch_returns_body_of_200_witness :
  let w := mkWorld (λ n _, match n with
                           | O => Raise (Exn Timeout "timed out")
                           | S _ => Ret (Response 200 "{}" (Ret seattle))
                           end) [] ∅ ∅ in
  ∃ k resp, (k < 3)%nat
            ∧ network w k (weather_request "Seattle" "key") = Ret resp
            ∧ status_code resp = 200 ∧ json resp = Ret seattle.
Proof.
  cbv zeta.
  apply (fetch_returns_body_of_200 "Seattle" "key" 3 (3 # 10)
           (mkWorld (λ n _, match n with
                            | O => Raise (Exn Timeout "timed out")
                            | S _ => Ret (Response 200 "{}" (Ret seattle))
                            end) [] ∅ ∅) seattle).
  - vm_compute. reflexivity.
  - discriminate.
Defined.

(** ** Fetching for a list of cities *)

(** A fetch whose first response ends it: the body of a 200 response or
    [None] is returned after one request, and nothing is slept. *)
Lemma fetch_first_response city api_key resp w :
  network w (length (requests w)) (weather_request city api_key) = Ret resp →
  ends_fetch resp →
  ∃ v evs,
    fetch_raw_weather_data_for_city city api_key DEFAULT_RETRIES DEFAULT_BACKOFF_FACTOR w
    = (Ret v, emits (Requested (weather_request city api_key) :: evs) w)
    ∧ requests_of evs = [] ∧ sleeps_of evs = []
    ∧ (if truthy v then Some v else None) = kept_body resp.
Proof.
  intros Hnet Hends.
  assert (∃ v, final_result
                 (attempt_outcome city
                    (network w (length (requests w) + 0)
                       (weather_request city api_key))).1 = Some (Ret v)
               ∧ (if truthy v then Some v else None) = kept_body resp)
    as (v & Hfinal & Hkept).
  { rewrite Nat.add_0_r, Hnet. unfold kept_body. simpl.
    destruct (Z.eqb_spec (status_code resp) 200) as [Hs|Hs]; simpl.
    - destruct (Hends Hs) as [data ->]. simpl. by exists data.
    - by exists PNone. }
  exists v. eexists. split; [|split; [|split; [|exact Hkept]]].
  - apply (fetch_last_attempt city api_key DEFAULT_RETRIES DEFAULT_BACKOFF_FACTOR
             (λ _, Exn Timeout "") 0 w (Ret v)); try done.
    + unfold DEFAULT_RETRIES. simpl. lia.
    + intros j Hj. lia.
  - apply attempt_outcome_prints_only.
  - apply attempt_outcome_prints_only.
Qed.

Lemma fetch_cities_first_responses cities : ∀ (resps : list response) api_key results w,
  length resps = length cities →
  (∀ i city resp,
     cities !! i = Some city → resps !! i = Some resp →
     network w (length (requests w) + i) (weather_request city api_key) = Ret resp
     ∧ ends_fetch resp) →
  let run := fetch_cities cities api_key results w in
  run.1 = Ret (results ++ omap kept_body resps)
  ∧ requests run.2 = requests w ++ ((λ city, weather_request city api_key) <$> cities)
  ∧ sleeps run.2 = sleeps w.
Proof.
  induction cities as [|city cities IH]; intros resps api_key results w Hlen Hnet;
    destruct resps as [|resp resps]; try discriminate Hlen; cbv zeta; simpl.
  - by rewrite !app_nil_r.
  - destruct (Hnet 0%nat city resp eq_refl eq_refl) as [Hnet0 Hends].
    rewrite Nat.add_0_r in Hnet0.
    destruct (fetch_first_response city api_key resp w Hnet0 Hends)
      as (v & evs & Hrun & Hreq & Hsleep & Hkept).
    unfold mbind, M_bind, bind. rewrite Hrun.
    set (w1 := emits _ w).
    assert (requests w1 = requests w ++ [weather_request city api_key]) as Hreq1.
    { unfold w1. rewrite requests_emits. simpl. by rewrite Hreq. }
    assert (sleeps w1 = sleeps w) as Hsleep1.
    { unfold w1. rewrite sleeps_emits. simpl. by rewrite Hsleep, app_nil_r. }
    destruct (IH resps api_key (if truthy v then results ++ [v] else results) w1)
      as (Hret & Hreqs & Hsleeps).
    + by injection Hlen.
    + intros i c r Hc Hr. rewrite Hreq1, length_app. simpl.
      replace (length (requests w) + 1 + i)%nat
        with (length (requests w) + S i)%nat by lia.
      by apply Hnet.
    + rewrite Hret, Hreqs, Hsleeps, Hreq1, Hsleep1, <- Hkept, <- app_assoc.
      repeat split. by destruct (truthy v); simpl; rewrite <- ?app_assoc.
Qed.

(** X6. With a key, one city after the other: when the first response for
    every city ends its fetch (an HTTP error, or a 200 response whose body
    parses), [get_weather_data] sends exactly one request per city, in the
    order of the cities and with the key of the environment, never
    sleeps, and returns the truthy bodies of the 200 responses in that
    order; a city that is refused leaves no entry and does not stop the
    cities after it. *)
Theorem get_weather_data_first_responses
    (cities : list string) (resps : list response) (key : string) (w : World) :
  (environ w ∪ dotenv_file w) !! "API_KEY" = Some key →
  key ≠ "" →
  length resps = length cities →
  (∀ i city resp,
     cities !! i = Some city → resps !! i = Some resp →
     network w (length (requests w) + i) (weather_request city key) = Ret resp
     ∧ ends_fetch resp) →
  let run := get_weather_data cities w in
  run.1 = Ret (omap kept_body resps)
  ∧ requests run.2 = requests w ++ ((λ city, weather_request city key) <$> cities)
  ∧ sleeps run.2 = sleeps w.
Proof.
  intros Hkey Hne Hlen Hnet. cbv zeta.
  unfold get_weather_data, load_dotenv, os_getenv. run. rewrite Hkey.
  destruct key as [|c key]; [done|].
  apply (fetch_cities_first_responses cities resps (String c key) []
           (mkWorld (network w) (trace w) (environ w ∪ dotenv_file w) (dotenv_file w)));
    done.
Qed.

Lemma get_weather_data_first_responses_witness :
  let w := mkWorld (λ n _, match n with
                           | 1%nat => Ret (Response 404 "not found" (Ret PNone))
                           | _ => Ret (Response 200 "{}" (Ret seattle))
                           end)
             [] {["API_KEY" := "key"]} ∅ in
  let run := get_weather_data ["Seattle"; "Atlantis"; "Mumbai"] w in
  run.1 = Ret [seattle; seattle]
  ∧ length (requests run.2) = 3%nat.
Proof.
  cbv zeta.
  destruct (get_weather_data_first_responses ["Seattle"; "Atlantis"; "Mumbai"]
              [Response 200 "{}" (Ret seattle); Response 404 "not found" (Ret PNone);
               Response 200 "{}" (Ret seattle)]
              "key"
              (mkWorld (λ n _, match n with
                               | 1%nat => Ret (Response 404 "not found" (Ret PNone))
                               | _ => Ret (Response 200 "{}" (Ret seattle))
                               end)
                 [] {["API_KEY" := "key"]} ∅))
    as (Hret & Hreq & _).
  - vm_compute. reflexivity.
  - discriminate.
  - reflexivity.
  - intros [|[|[|i]]] city resp Hcity Hresp; simpl in *; simplify_eq;
      (split; [reflexivity|]); intros Hs; try (by eexists); simpl in Hs; lia.
  - split; [rewrite Hret; vm_compute; reflexivity|by rewrite Hreq].
Defined.

(** X7. A key that is set to the empty string counts as no key: the
    message is printed once, the result is empty, and no request is
    sent. *)
Theorem get_weather_data_empty_key (cities : list string) (w : World) :
  environ w !! "API_KEY" = Some "" →
  let run := get_weather_data cities w in
  run.1 = Ret []
  ∧ trace run.2 = trace w ++ [Printed API_KEY_MISSING_MESSAGE]
  ∧ requests run.2 = requests w
  ∧ sleeps run.2 = sleeps w.
Proof.
  intros Henv. cbv zeta.
  unfold get_weather_data, load_dotenv, os_getenv. run.
  assert ((environ w ∪ dotenv_file w) !! "API_KEY" = Some "") as ->
    by by apply lookup_union_Some_l.
  run. unfold requests, sleeps. simpl.
  rewrite requests_of_app, sleeps_of_app. simpl. by rewrite !app_nil_r.
Qed.

Lemma get_weather_data_empty_key_witness :
  let w := mkWorld (λ _ _, Ret (Response 200 "{}" (Ret seattle))) []
             {["API_KEY" := ""]} {["API_KEY" := "key"]} in
  let run := get_weather_data ["Seattle"] w in
  run.1 = Ret [] ∧ requests run.2 = [].
Proof.
  cbv zeta.
  destruct (get_weather_data_empty_key ["Seattle"]
              (mkWorld (λ _ _, Ret (Response 200 "{}" (Ret seattle))) []
                 {["API_KEY" := ""]} {["API_KEY" := "key"]}))
    as (Hret & _ & Hreq & _); [vm_compute; reflexivity|].
  split; [exact Hret|exact Hreq].
Defined.

Lemma fetch_cities_events cities : ∀ api_key results w,
  ∃ evs, (fetch_cities cities api_key results w).2 = emits evs w
         ∧ (length (requests_of evs) ≤ 3 * length cities)%nat
         ∧ Forall (λ r, ∃ city, city ∈ cities ∧ r = weather_request city api_key)
             (requests_of evs)
         ∧ (length (sleeps_of evs) ≤ length (requests_of evs))%nat.
Proof.
  induction cities as [|city cities IH]; intros api_key results w; simpl.
  - exists []. rewrite emits_nil. repeat split; simpl; (done || lia || constructor).
  - unfold mbind, M_bind, bind.
    destruct (fetch_events city api_key DEFAULT_RETRIES DEFAULT_BACKOFF_FACTOR w)
      as (evs1 & m & Hw1 & Hreq1 & Hm & Hsleep1).
    destruct (fetch_raw_weather_data_for_city _ _ _ _ w) as [r w1]. simpl in Hw1. subst w1.
    assert (Forall (λ r, ∃ c, c ∈ city :: cities ∧ r = weather_request c api_key)
              (requests_of evs1)) as Hall1.
    { rewrite Hreq1. apply Forall_replicate. exists city. split; [left|done]. }
    assert (length (requests_of evs1) = m) as Hlen1 by by rewrite Hreq1, length_replicate.
    unfold DEFAULT_RETRIES in Hm. simpl in Hm.
    destruct r as [v|e].
    + destruct (IH api_key (if truthy v then results ++ [v] else results) (emits evs1 w))
        as (evs & -> & Hlen & Hall & Hsleep).
      exists (evs1 ++ evs). rewrite emits_emits, requests_of_app, sleeps_of_app, !length_app.
      repeat split; [lia| |lia].
      apply Forall_app. split; [exact Hall1|].
      eapply Forall_impl; [exact Hall|]. intros r (c & Hc & ->).
      exists c. split; [by right|done].
    + exists evs1. repeat split; (done || lia).
Qed.

(** X8. Whatever the network does, [get_weather_data] sends at most three
    requests per city; every request it sends asks for one of the given
    cities with the key of the environment, and it never sleeps more often
    than it has sent a request. *)
Theorem get_weather_data_request_budget (cities : list string) (w : World) :
  let run := get_weather_data cities w in
  ∃ sent, requests run.2 = requests w ++ sent
          ∧ (length sent ≤ 3 * length cities)%nat
          ∧ (∀ r, r ∈ sent →
               ∃ city key, city ∈ cities
                           ∧ (environ w ∪ dotenv_file w) !! "API_KEY" = Some key
                           ∧ r = weather_request city key)
          ∧ (length (sleeps run.2) ≤ length (sleeps w) + length sent)%nat.
Proof.
  cbv zeta. unfold get_weather_data, load_dotenv, os_getenv. run.
  destruct ((environ w ∪ dotenv_file w) !! "API_KEY") as [[|c key]|] eqn:Hkey.
  - exists []. run. unfold requests, sleeps. simpl.
    rewrite requests_of_app, sleeps_of_app. simpl. rewrite !app_nil_r.
    repeat split; [lia| |lia]. intros r Hr. by apply elem_of_nil in Hr.
  - set (w0 := mkWorld _ _ _ _).
    destruct (fetch_cities_events cities (String c key) [] w0)
      as (evs & -> & Hlen & Hall & Hsleep).
    exists (requests_of evs). rewrite requests_emits, sleeps_emits, length_app.
    repeat split; [done| |unfold sleeps; simpl; lia].
    intros r Hr. rewrite Forall_forall in Hall.
    destruct (Hall r Hr) as (city & Hcity & ->). by exists city, (String c key).
  - exists []. run. unfold requests, sleeps. simpl.
    rewrite requests_of_app, sleeps_of_app. simpl. rewrite !app_nil_r.
    repeat split; [lia| |lia]. intros r Hr. by apply elem_of_nil in Hr.
Qed.

Lemma fetch_cities_results cities : ∀ api_key acc w results,
  (fetch_cities cities api_key acc w).1 = Ret results →
  ∃ more, results = acc ++ more
          ∧ (length more ≤ length cities)%nat
          ∧ Forall (λ data, truthy data = true) more.
Proof.
  induction cities as [|city cities IH]; intros api_key acc w results; simpl.
  - intros [= <-]. exists []. by rewrite app_nil_r.
  - unfold mbind, M_bind, bind.
    destruct (fetch_raw_weather_data_for_city _ _ _ _ w) as [[v|e] w1]; [|done].
    intros Hrun. apply IH in Hrun as (more & -> & Hlen & Hall).
    destruct (truthy v) eqn:Hv.
    + exists (v :: more). rewrite <- app_assoc. repeat split; simpl; [lia|].
      by constructor.
    + exists more. repeat split; [simpl; lia|done].
Qed.

(** X9. What [get_weather_data] returns holds at most one entry per city,
    and every entry is truthy: a city whose fetch gave [None], or an empty
    body, leaves no entry. *)
Theorem get_weather_data_results (cities : list string) (w : World) (results : list pyval) :
  (get_weather_data cities w).1 = Ret results →
  (length results ≤ length cities)%nat
  ∧ ∀ data, data ∈ results → truthy data = true ∧ data ≠ PNone.
Proof.
  unfold get_weather_data, load_dotenv, os_getenv. run.
  assert (∀ data, data ∈ [] → truthy data = true ∧ data ≠ PNone) as Hnil
    by (intros data Hd; by apply elem_of_nil in Hd).
  destruct (_ !! "API_KEY") as [[|c key]|]; run.
  - intros [= <-]. split; [simpl; lia|exact Hnil].
  - intros Hrun. apply fetch_cities_results in Hrun as (more & -> & Hlen & Hall).
    split; [done|]. intros data Hd. rewrite Forall_forall in Hall.
    split; [by apply Hall|]. apply truthy_not_None. by apply Hall.
  - intros [= <-]. split; [simpl; lia|exact Hnil].
Qed.

Lemma get_weather_data_results_witness :
  let w := mkWorld (λ n _, match n with
                           | 1%nat => Ret (Response 404 "not found" (Ret PNone))
                           | _ => Ret (Response 200 "{}" (Ret seattle))
                           end)
             [] {["API_KEY" := "key"]} ∅ in
  (2 ≤ 3)%nat ∧ ∀ data, data ∈ [seattle; seattle] → truthy data = true ∧ data ≠ PNone.
Proof.
  cbv zeta.
  apply (get_weather_data_results ["Seattle"; "Atlantis"; "Mumbai"]
           (mkWorld (λ n _, match n with
                            | 1%nat => Ret (Response 404 "not found" (Ret PNone))
                            | _ => Ret (Response 200 "{}" (Ret seattle))
                            end)
              [] {["API_KEY" := "key"]} ∅) [seattle; seattle]).
  vm_compute. reflexivity.
Defined.

(** ** More on [extract_required_fields] *)

Lemma list_getitem_negative {A} (data : list A) (k : Z) :
  1 ≤ k ≤ Z.of_nat (length data) →
  list_getitem data (- k) = list_getitem data (Z.of_nat (length data) - k).
Proof.
  intros Hk. unfold list_getitem, normalize_index.
  destruct (Z.ltb_spec (- k) 0); [|lia].
  destruct (Z.ltb_spec (Z.of_nat (length data) - k) 0); [lia|].
  by replace (- k + Z.of_nat (length data)) with (Z.of_nat (length data) - k) by lia.
Qed.

(** X10. A negative index counts from the end, as everywhere in Python:
    for [1 <= k <= len(data)], index [-k] reads the observation that index
    [len(data) - k] reads, and the call returns the same. *)
Theorem extract_negative_index (data : list pyval) (k : Z) (w : World) :
  1 ≤ k ≤ Z.of_nat (length data) →
  read_fields data (- k) = read_fields data (Z.of_nat (length data) - k)
  ∧ (extract_required_fields data (- k) w).1
    = (extract_required_fields data (Z.of_nat (length data) - k) w).1.
Proof.
  intros Hk.
  assert (read_fields data (- k) = read_fields data (Z.of_nat (length data) - k)) as Hread
    by (unfold read_fields; by rewrite (list_getitem_negative data k Hk)).
  split; [exact Hread|]. rewrite !extract_required_fields_spec, Hread.
  clear Hread.
  destruct (read_fields data (Z.of_nat (length data) - k)) as [f|e];
    [destruct (essential_present f)|]; reflexivity.
Qed.

Lemma extract_negative_index_witness :
  (extract_required_fields [seattle_unnamed; seattle] (-1) quiet_world).1
  = Ret (PDict seattle_record).
Proof.
  destruct (extract_negative_index [seattle_unnamed; seattle] 1 quiet_world) as [_ Hrun].
  - simpl. lia.
  - etrans; [exact Hrun|]. vm_compute. reflexivity.
Defined.

(** X11. A call returns a record and prints nothing, or returns [None]
    and prints exactly one line; it sends no request, does not sleep, and
    leaves the environment as it is. *)
Theorem extract_prints_at_most_one_line (data : list pyval) (idx : Z) (w : World) :
  let run := extract_required_fields data idx w in
  ((∃ rec : Dict, run = (Ret (PDict rec), w))
   ∨ (∃ line, run = (Ret PNone, emit (Printed line) w)))
  ∧ requests run.2 = requests w
  ∧ sleeps run.2 = sleeps w
  ∧ environ run.2 = environ w.
Proof.
  cbv zeta. rewrite extract_required_fields_spec.
  destruct (read_fields data idx) as [f|e]; [destruct (essential_present f)|];
    simpl; unfold emit; rewrite ?requests_emits, ?sleeps_emits; simpl;
    rewrite ?app_nil_r; (split; [|done]); eauto.
Qed.

Lemma record_of_keys f : dom (record_of f) = list_to_set RECORD_KEYS.
Proof.
  unfold record_of, RECORD_KEYS. simpl.
  by rewrite !dom_insert_L, dom_empty_L.
Qed.



(** X13. A record copies, it does not convert.  For an observation of the
    provider's shape ([sys], [main] and [wind] are objects, [weather] is a
    list that starts with an object), the city, the country and the
    temperature of the record are the values found under [name],
    [sys.country] and [main.temp]; each other field is the value found
    under its key, or [None] when the key is absent; and the weather
    fields come from the first element of [weather] alone. *)
Theorem record_copies_observation
    (data : list pyval) (idx : Z) (w : World)
    (entries sys main wind condition rec : Dict) (others : list pyval) :
  list_getitem data idx = Ret (PDict entries) →
  entries !! "sys" = Some (PDict sys) →
  entries !! "main" = Some (PDict main) →
  entries !! "wind" = Some (PDict wind) →
  entries !! "weather" = Some (PList (PDict condition :: others)) →
  (extract_required_fields data idx w).1 = Ret (PDict rec) →
  rec !! "city" = entries !! "name"
  ∧ rec !! "country" = sys !! "country"
  ∧ rec !! "temp_celsius" = main !! "temp"
  ∧ rec !! "feels_like_celsius" = Some (default PNone (main !! "feels_like"))
  ∧ rec !! "weather_main" = Some (default PNone (condition !! "main"))
  ∧ rec !! "weather_desc" = Some (default PNone (condition !! "description"))
  ∧ rec !! "humidity" = Some (default PNone (main !! "humidity"))
  ∧ rec !! "wind_speed" = Some (default PNone (wind !! "speed")).
Proof.
  intros Hitem Hsys Hmain Hwind Hweather Hrec.
  destruct (returned_record_inv _ _ _ _ Hrec) as (f & Hread & Hess & ->).
  apply read_fields_Ret in Hread
    as (item & ts & dt & Hitem' & Hcity & Hcountry & Htemp & Hfeels & Hwmain & Hwdesc
        & Hhum & Hspeed & _).
  rewrite Hitem in Hitem'. injection Hitem' as <-.
  unfold get_nested, get_nested_first in *. simpl in *.
  rewrite ?Hsys, ?Hmain, ?Hwind, ?Hweather in *. simpl in *.
  apply essential_present_spec in Hess as (Tcity & Tcountry & Ttemp).
  destruct (record_of_lookups f) as (-> & -> & -> & -> & -> & -> & -> & -> & _).
  injection Hcity as Hcity. injection Hcountry as Hcountry. injection Htemp as Htemp.
  injection Hfeels as <-. injection Hwmain as <-. injection Hwdesc as <-.
  injection Hhum as <-. injection Hspeed as <-.
  repeat split.
  - destruct (entries !! "name"); simpl in Hcity; subst; [done|]. by rewrite <- Hcity in Tcity.
  - destruct (sys !! "country"); simpl in Hcountry; subst; [done|].
    by rewrite <- Hcountry in Tcountry.
  - destruct (main !! "temp"); simpl in Htemp; subst; [done|]. by rewrite <- Htemp in Ttemp.
Qed.

Lemma record_copies_observation_witness :
  seattle_record !! "temp_celsius" = Some (PFloat (FFinite (15 # 1)))
  ∧ seattle_record !! "weather_main" = Some (PStr "Clouds").
Proof.
  destruct (record_copies_observation [seattle] 0 quiet_world seattle_entries
              (list_to_map [("country", PStr "US")])
              (list_to_map [("temp", PFloat (FFinite (15 # 1)));
                            ("feels_like", PFloat (FFinite (14 # 1)));
                            ("humidity", PInt 70)])
              (list_to_map [("speed", PFloat (FFinite (31 # 10)))])
              (list_to_map [("main", PStr "Clouds");
                            ("description", PStr "overcast clouds")])
              seattle_record [])
    as (_ & _ & Htemp & _ & Hwmain & _); try (vm_compute; reflexivity).
  split; [rewrite Htemp|rewrite Hwmain]; vm_compute; reflexivity.
Defined.

(** ** The cleaning loop of [main] *)

Lemma truthy_record f : truthy (PDict (record_of f)) = true.
Proof.
  simpl. destruct (map_to_list (record_of f)) as [|p rest] eqn:Hlist; [|done].
  apply map_to_list_empty_iff in Hlist.
  destruct (record_of_lookups f) as [Hcity _]. by rewrite Hlist in Hcity.
Qed.

(** What one call hands back to the loop: the accepted row, which is
    truthy, or [None]; and at most a printed line. *)
Lemma extract_row data idx w :
  ∃ evs, extract_required_fields data idx w
         = (Ret (default PNone (accepted_row data idx)), emits evs w)
         ∧ requests_of evs = [] ∧ sleeps_of evs = []
         ∧ truthy (default PNone (accepted_row data idx))
           = bool_decide (is_Some (accepted_row data idx)).
Proof.
  rewrite extract_required_fields_spec. unfold accepted_row.
  destruct (read_fields data idx) as [f|e]; [destruct (essential_present f)|];
    cbn [default].
  - exists []. rewrite emits_nil. repeat split.
  - eexists [_]. by repeat split.
  - eexists [_]. by repeat split.
Qed.

Lemma clean_from_spec json_dumps pformat weather_data_list remaining :
  ∀ (s : nat) cleaned_data w,
  ∃ evs, clean_from json_dumps pformat weather_data_list (Z.of_nat s) remaining
           cleaned_data w
         = (Ret (cleaned_data
                 ++ omap (accepted_row weather_data_list)
                      (Z.of_nat <$> seq s (length remaining))),
            emits evs w)
         ∧ requests_of evs = [] ∧ sleeps_of evs = [].
Proof.
  induction remaining as [|data rest IH]; intros s cleaned w; simpl.
  - exists []. by rewrite emits_nil, app_nil_r.
  - unfold mbind, M_bind, bind.
    destruct (extract_row weather_data_list (Z.of_nat s) w)
      as (evs1 & -> & Hreq1 & Hsleep1 & Htruthy).
    rewrite Htruthy. replace (Z.of_nat s + 1) with (Z.of_nat (S s)) by lia.
    destruct (accepted_row weather_data_list (Z.of_nat s)) as [row|] eqn:Hrow; simpl.
    + unfold pprint, print. simpl.
      destruct (IH (S s) (cleaned ++ [row]) (emit (Printed (pformat (PStr (json_dumps data 3))))
                                               (emits evs1 w)))
        as (evs & -> & Hreq & Hsleep).
      unfold emit. rewrite !emits_emits, <- app_assoc.
      eexists. split; [reflexivity|].
      rewrite !requests_of_app, !sleeps_of_app, Hreq1, Hsleep1, Hreq, Hsleep. done.
    +       destruct (IH (S s) cleaned (emits evs1 w)) as (evs & -> & Hreq & Hsleep).
      rewrite emits_emits. eexists. split; [reflexivity|].
      rewrite !requests_of_app, !sleeps_of_app, Hreq1, Hsleep1, Hreq, Hsleep. done.
Qed.

Lemma clean_spec json_dumps pformat weather_data_list w :
  ∃ evs, clean json_dumps pformat weather_data_list w
         = (Ret (omap (accepted_row weather_data_list)
                   (Z.of_nat <$> seq 0 (length weather_data_list))),
            emits evs w)
         ∧ requests_of evs = [] ∧ sleeps_of evs = [].
Proof. apply (clean_from_spec json_dumps pformat weather_data_list _ 0%nat []). Qed.

Lemma accepted_row_record data idx row :
  accepted_row data idx = Some row →
  ∃ rec : Dict, row = PDict rec
                ∧ dom rec = list_to_set RECORD_KEYS
                ∧ record_has_essentials rec.
Proof.
  unfold accepted_row.
  destruct (read_fields data idx) as [f|e]; [|done].
  destruct (essential_present f) eqn:Hess; [|done]. intros [= <-].
  exists (record_of f). split; [done|]. split; [apply record_of_keys|].
  apply essential_present_spec in Hess as (Hcity & Hcountry & Htemp).
  destruct (record_of_lookups f) as (Hc & Hk & Ht & _).
  exists (f_city f), (f_country f), (f_temp_celsius f).
  repeat split; auto using truthy_not_None.
Qed.

(** X14. The cleaning loop keeps, in the order of the observations, the
    row of every observation that [extract_required_fields] accepts, and
    drops the others without stopping: the cleaned rows are never more
    than the observations, and as many when every observation is
    accepted.  The loop sends no request and does not sleep. *)
Theorem clean_keeps_accepted_rows
    (json_dumps : pyval → Z → string) (pformat : pyval → string)
    (weather_data_list : list pyval) (w : World) :
  let run := clean json_dumps pformat weather_data_list w in
  let indices := Z.of_nat <$> seq 0 (length weather_data_list) in
  let cleaned_data := omap (accepted_row weather_data_list) indices in
  run.1 = Ret cleaned_data
  ∧ (length cleaned_data ≤ length weather_data_list)%nat
  ∧ ((∀ idx, idx ∈ indices → is_Some (accepted_row weather_data_list idx)) →
     length cleaned_data = length weather_data_list)
  ∧ requests run.2 = requests w
  ∧ sleeps run.2 = sleeps w.
Proof.
  cbv zeta.
  destruct (clean_spec json_dumps pformat weather_data_list w) as (evs & -> & Hreq & Hsleep).
  simpl. rewrite requests_emits, sleeps_emits, Hreq, Hsleep, !app_nil_r.
  split; [done|].
  assert (∀ (l : list Z),
            (length (omap (accepted_row weather_data_list) l) ≤ length l)%nat
            ∧ ((∀ idx, idx ∈ l → is_Some (accepted_row weather_data_list idx)) →
               length (omap (accepted_row weather_data_list) l) = length l)) as Hlen.
  { induction l as [|i l [IHle IHeq]]; simpl; [done|].
    unfold omap in IHle, IHeq.
    destruct (accepted_row weather_data_list i) as [row|] eqn:Hrow; simpl.
    - split; [lia|]. intros Hall. rewrite IHeq; [done|].
      intros idx Hidx. apply Hall. by right.
    - split; [lia|]. intros Hall. destruct (Hall i) as [row Hrow']; [left|]. congruence. }
  destruct (Hlen (Z.of_nat <$> seq 0 (length weather_data_list))) as [Hle Heq].
  rewrite length_fmap, length_seq in Hle, Heq. by repeat split.
Qed.

Lemma clean_keeps_accepted_rows_witness :
  let weather_data_list := [seattle; seattle] in
  let indices := Z.of_nat <$> seq 0 (length weather_data_list) in
  (∀ idx, idx ∈ indices → is_Some (accepted_row weather_data_list idx))
  ∧ length (omap (accepted_row weather_data_list) indices) = 2%nat.
Proof.
  cbv zeta.
  assert (∀ idx, idx ∈ Z.of_nat <$> seq 0 (length [seattle; seattle]) →
                 is_Some (accepted_row [seattle; seattle] idx)) as Hall.
  { intros idx Hidx. simpl in Hidx.
    apply elem_of_cons in Hidx as [->|Hidx];
      [|apply elem_of_cons in Hidx as [->|Hidx]; [|by apply elem_of_nil in Hidx]];
      eexists; vm_compute; reflexivity. }
  split; [exact Hall|].
  destruct (clean_keeps_accepted_rows (λ _ _, "{}") (λ _, "[]") [seattle; seattle] quiet_world)
    as (_ & _ & Heq & _).
  exact (Heq Hall).
Defined.

(** X15. Every cleaned row is a record with the nine keys, and with a
    city, a country and a temperature that are not [None]: the table
    built from the rows has the same columns in every row, and sorting it
    by [temp_celsius] meets no missing temperature. *)
Theorem cleaned_rows_are_records
    (json_dumps : pyval → Z → string) (pformat : pyval → string)
    (weather_data_list : list pyval) (w : World) (cleaned_data : list pyval) :
  (clean json_dumps pformat weather_data_list w).1 = Ret cleaned_data →
  ∀ row, row ∈ cleaned_data →
    ∃ rec : Dict, row = PDict rec
                  ∧ dom rec = list_to_set RECORD_KEYS
                  ∧ record_has_essentials rec.
Proof.
  destruct (clean_spec json_dumps pformat weather_data_list w) as (evs & -> & _).
  intros [= <-] row Hrow.
  apply list_elem_of_omap in Hrow as (idx & _ & Hacc).
  by apply (accepted_row_record weather_data_list idx).
Qed.

Lemma cleaned_rows_are_records_witness :
  ∃ rec : Dict, PDict seattle_record = PDict rec
                ∧ dom rec = list_to_set RECORD_KEYS
                ∧ record_has_essentials rec.
Proof.
  apply (cleaned_rows_are_records (λ _ _, "") (λ _, "") [seattle_without_dt; seattle]
           quiet_world [PDict seattle_record]).
  - vm_compute. reflexivity.
  - left.
Defined.

(** ** [main], from the key to the cleaned rows *)

Lemma print_raw_spec json_dumps weather_data_list : ∀ w,
  print_raw json_dumps weather_data_list w
  = (Ret tt, emits (Printed <$> ((λ data, json_dumps data 5) <$> weather_data_list)) w).
Proof.
  induction weather_data_list as [|data rest IH]; intros w; simpl.
  - by rewrite emits_nil.
  - unfold mbind, M_bind, bind, print. simpl. rewrite IH. unfold emit.
    by rewrite emits_emits.
Qed.

Lemma requests_of_printed lines : requests_of (Printed <$> lines) = [].
Proof. by induction lines. Qed.

Lemma sleeps_of_printed lines : sleeps_of (Printed <$> lines) = [].
Proof. by induction lines. Qed.

(** What [main] does once [get_weather_data] has returned: it prints,
    cleans and prints, and sends nothing. *)
Lemma main_after_fetch json_dumps pformat w weather_data_list w1 :
  get_weather_data CITIES w = (Ret weather_data_list, w1) →
  ∃ evs, main_cleaned_data json_dumps pformat w
         = (Ret (omap (accepted_row weather_data_list)
                   (Z.of_nat <$> seq 0 (length weather_data_list))),
            emits evs w1)
         ∧ requests_of evs = [] ∧ sleeps_of evs = [].
Proof.
  intros Hfetch. unfold main_cleaned_data. cbv zeta.
  unfold mbind at 1, M_bind at 1, bind at 1. rewrite Hfetch.
  unfold mbind at 1, M_bind at 1, bind at 1. rewrite print_raw_spec.
  unfold mbind at 1, M_bind at 1, bind at 1. unfold print at 1. cbv beta.
  unfold mbind at 1, M_bind at 1, bind at 1.
  match goal with |- context [clean _ _ _ ?w0] =>
    destruct (clean_spec json_dumps pformat weather_data_list w0) as (evs & -> & Hreq & Hsleep)
  end.
  unfold pprint. run. eexists. split; [reflexivity|].
  rewrite requests_of_app, sleeps_of_app, !requests_of_printed, !sleeps_of_printed.
  change (requests_of (Printed SEPARATOR :: ?l)) with (requests_of l).
  change (sleeps_of (Printed SEPARATOR :: ?l)) with (sleeps_of l).
  by rewrite requests_of_app, sleeps_of_app, Hreq, Hsleep.
Qed.

(** X16. Without a key [main] does not stop: it prints the message of
    [get_weather_data], then goes through its printing and cleaning with
    an empty list, and ends up with no rows; no request is sent on the
    way. *)
Theorem main_without_key
    (json_dumps : pyval → Z → string) (pformat : pyval → string) (w : World) :
  environ w !! "API_KEY" = None →
  dotenv_file w !! "API_KEY" = None →
  let run := main_cleaned_data json_dumps pformat w in
  run.1 = Ret []
  ∧ stdout run.2
    = stdout w ++ [API_KEY_MISSING_MESSAGE; SEPARATOR; SEPARATOR; "Cleaned Data:";
                   pformat (PList [])]
  ∧ requests run.2 = requests w
  ∧ sleeps run.2 = sleeps w.
Proof.
  intros Henv Hfile. cbv zeta.
  assert (get_weather_data CITIES w
          = (Ret [],
             emit (Printed API_KEY_MISSING_MESSAGE)
               (mkWorld (network w) (trace w) (environ w ∪ dotenv_file w) (dotenv_file w))))
    as Hfetch.
  { unfold get_weather_data, load_dotenv, os_getenv. run.
    assert ((environ w ∪ dotenv_file w) !! "API_KEY" = None) as ->
      by by apply lookup_union_None.
    by run. }
  assert (main_cleaned_data json_dumps pformat w
          = (Ret [],
             emits (Printed <$> [API_KEY_MISSING_MESSAGE; SEPARATOR; SEPARATOR;
                                 "Cleaned Data:"; pformat (PList [])])
               (mkWorld (network w) (trace w) (environ w ∪ dotenv_file w) (dotenv_file w))))
    as ->.
  { unfold main_cleaned_data. cbv zeta.
    unfold mbind at 1, M_bind at 1, bind at 1. rewrite Hfetch.
    unfold clean, pprint. by run. }
  unfold requests, sleeps, stdout. simpl.
  rewrite requests_of_app, sleeps_of_app, stdout_of_app. simpl.
  by rewrite !app_nil_r.
Qed.

Lemma main_without_key_witness :
  let run := main_cleaned_data (λ _ _, "{}") (λ _, "[]") quiet_world in
  run.1 = Ret [] ∧ requests run.2 = [].
Proof.
  cbv zeta.
  destruct (main_without_key (λ _ _, "{}") (λ _, "[]") quiet_world)
    as (Hret & _ & Hreq & _); [reflexivity|reflexivity|].
  split; [exact Hret|exact Hreq].
Defined.

Lemma get_weather_data_with_key cities resps key w :
  (environ w ∪ dotenv_file w) !! "API_KEY" = Some key →
  key ≠ "" →
  length resps = length cities →
  (∀ i city resp,
     cities !! i = Some city → resps !! i = Some resp →
     network w (length (requests w) + i) (weather_request city key) = Ret resp
     ∧ ends_fetch resp) →
  let run := get_weather_data cities w in
  run.1 = Ret (omap kept_body resps)
  ∧ requests run.2 = requests w ++ ((λ city, weather_request city key) <$> cities)
  ∧ sleeps run.2 = sleeps w.
Proof.
  intros Hkey Hne Hlen Hnet. cbv zeta.
  unfold get_weather_data, load_dotenv, os_getenv. run. rewrite Hkey.
  destruct key as [|c key]; [done|].
  apply (fetch_cities_first_responses cities resps (String c key) []
           (mkWorld (network w) (trace w) (environ w ∪ dotenv_file w) (dotenv_file w)));
    done.
Qed.

(** X17. From the responses to the rows: with a key, when the first
    response for each of the three cities ends its fetch, [main] sends
    three requests, one per city in order, and its cleaned rows are the
    accepted rows of the observations that [get_weather_data] kept, in
    order. *)
Theorem main_first_responses
    (json_dumps : pyval → Z → string) (pformat : pyval → string)
    (resps : list response) (key : string) (w : World) :
  (environ w ∪ dotenv_file w) !! "API_KEY" = Some key →
  key ≠ "" →
  length resps = 3%nat →
  (∀ i city resp,
     CITIES !! i = Some city → resps !! i = Some resp →
     network w (length (requests w) + i) (weather_request city key) = Ret resp
     ∧ ends_fetch resp) →
  let run := main_cleaned_data json_dumps pformat w in
  let weather_data_list := omap kept_body resps in
  run.1 = Ret (omap (accepted_row weather_data_list)
                 (Z.of_nat <$> seq 0 (length weather_data_list)))
  ∧ requests run.2
    = requests w ++ [weather_request "Seattle" key; weather_request "Mumbai" key;
                     weather_request "Los Angeles" key]
  ∧ sleeps run.2 = sleeps w.
Proof.
  intros Hkey Hne Hlen Hnet. cbv zeta.
  destruct (get_weather_data_with_key CITIES resps key w Hkey Hne Hlen Hnet)
    as (Hret & Hreq & Hsleep).
  destruct (get_weather_data CITIES w) as [r w1] eqn:Hfetch. simpl in Hret, Hreq, Hsleep.
  subst r.
  destruct (main_after_fetch json_dumps pformat w _ w1 Hfetch) as (evs & -> & Hreq' & Hsleep').
  simpl. rewrite requests_emits, sleeps_emits, Hreq', Hsleep', !app_nil_r.
  by rewrite Hreq, Hsleep.
Qed.

Lemma main_first_responses_witness :
  let w := mkWorld (λ n _, match n with
                           | 1%nat => Ret (Response 404 "not found" (Ret PNone))
                           | 2%nat => Ret (Response 200 "{}" (Ret seattle_without_dt))
                           | _ => Ret (Response 200 "{}" (Ret seattle))
                           end)
             [] {["API_KEY" := "key"]} ∅ in
  let run := main_cleaned_data (λ _ _, "{}") (λ _, "[]") w in
  run.1 = Ret [PDict seattle_record] ∧ length (requests run.2) = 3%nat.
Proof.
  cbv zeta.
  destruct (main_first_responses (λ _ _, "{}") (λ _, "[]")
              [Response 200 "{}" (Ret seattle); Response 404 "not found" (Ret PNone);
               Response 200 "{}" (Ret seattle_without_dt)]
              "key"
              (mkWorld (λ n _, match n with
                               | 1%nat => Ret (Response 404 "not found" (Ret PNone))
                               | 2%nat => Ret (Response 200 "{}" (Ret seattle_without_dt))
                               | _ => Ret (Response 200 "{}" (Ret seattle))
                               end)
                 [] {["API_KEY" := "key"]} ∅))
    as (Hret & Hreq & _).
  - vm_compute. reflexivity.
  - discriminate.
  - reflexivity.
  - intros [|[|[|i]]] city resp Hcity Hresp; simpl in *; simplify_eq;
      (split; [reflexivity|]); intros Hs; try (by eexists); simpl in Hs; lia.
  - split; [rewrite Hret; vm_compute; reflexivity|by rewrite Hreq].
Defined.

(** ** The record is a new object *)

Module NewRecord.
Import Heap.

Lemma returns_new_record_bind {A} (m : H A) (k : A → H val) :
  preserves m → (∀ a, returns_new_record (k a)) → returns_new_record (m ≫= k).
Proof.
  intros Hm Hk st. unfold mbind, H_bind, bind.
  specialize (Hm st). destruct (m st) as [[a|e] st1]; simpl in *; [|done].
  specialize (Hk a st1). destruct (k a st1) as [[v|e] st2]; simpl in *; [|done].
  destruct v; try done. destruct Hk as [Hnew Hrec]. split; [|done].
  by eapply lookup_weaken_None.
Qed.

Lemma returns_new_record_alloc entries :
  dom entries = list_to_set RECORD_KEYS → returns_new_record (alloc (ODict entries)).
Proof.
  intros Hdom st. unfold alloc. simpl. split.
  - apply not_elem_of_dom, is_fresh.
  - exists entries. by rewrite lookup_insert_eq.
Qed.

Lemma returns_new_record_None : returns_new_record (mret VNone).
Proof. intros st. done. Qed.

Lemma returns_new_record_if (b : bool) (m1 m2 : H val) :
  returns_new_record m1 → returns_new_record m2 →
  returns_new_record (if b then m1 else m2).
Proof. by destruct b. Qed.

Lemma extract_body_returns_new_record data city_idx :
  returns_new_record
    (item ← read (λ h, getitem h data city_idx);
     city ← read (λ h, get h item "name" VNone);
     country ← get_nested item "sys" "country";
     temp_celsius ← get_nested item "main" "temp";
     feels_like_celsius ← get_nested item "main" "feels_like";
     weather_main ← get_nested_first item "weather" "main";
     weather_desc ← get_nested_first item "weather" "description";
     humidity ← get_nested item "main" "humidity";
     wind_speed ← get_nested item "wind" "speed";
     timestamp_utc ← read (λ h, get h item "dt" VNone);
     dt ← read (λ h, utcfromtimestamp h timestamp_utc);
     let timestamp_str := Calendar.strftime dt in
     essential ← read (λ h, Ret (truthy h city && truthy h country
                                 && is_not_None temp_celsius));
     if essential : bool then
       alloc (ODict (list_to_map [
         ("city", city);
         ("country", country);
         ("temp_celsius", temp_celsius);
         ("feels_like_celsius", feels_like_celsius);
         ("weather_main", weather_main);
         ("weather_desc", weather_desc);
         ("humidity", humidity);
         ("wind_speed", wind_speed);
         ("timestamp_utc", VStr timestamp_str)]))
     else
       print (missing_essential_message city_idx);;
       mret VNone).
Proof.
  repeat lazymatch goal with
         | |- returns_new_record (_ ≫= _) => apply returns_new_record_bind; [|intros ?]
         | |- returns_new_record (let _ := _ in _) => cbv zeta
         | |- returns_new_record (if _ then _ else _) => apply returns_new_record_if
         | |- returns_new_record (alloc _) => apply returns_new_record_alloc
         | |- returns_new_record (mret VNone) => apply returns_new_record_None
         | |- preserves (print _) => apply HeapFacts.preserves_print
         | |- preserves (get_nested _ _ _) => apply HeapFacts.preserves_get_nested
         | |- preserves (get_nested_first _ _ _) => apply HeapFacts.preserves_get_nested_first
         | |- preserves (read _) => apply HeapFacts.preserves_read
         end.
  unfold RECORD_KEYS. simpl. by rewrite !dom_insert_L, dom_empty_L.
Qed.

End NewRecord.

(** X18. A record is a new object: whenever the call returns an object,
    it is a dictionary with the nine keys of a record, at a place in
    memory where no object was before the call.  The record shares its
    place with no observation, so that changing it later changes nothing
    of [data]. *)
Theorem extract_returns_new_record
    (data : Heap.val) (city_idx : Z) (st : Heap.state) (l : Heap.loc) :
  let run := Heap.extract_required_fields data city_idx st in
  run.1 = Ret (Heap.VRef l) →
  Heap.objects st !! l = None
  ∧ ∃ entries, Heap.objects run.2 !! l = Some (Heap.ODict entries)
               ∧ dom entries = list_to_set RECORD_KEYS.
Proof.
  cbv zeta. unfold Heap.extract_required_fields, Heap.try_except.
  pose proof (NewRecord.extract_body_returns_new_record data city_idx st) as Hbody.
  match type of Hbody with new_record _ (?m _).2 _ => destruct (m st) as [[v|e] st1] end;
    simpl in *.
  - by intros [= ->].
  - by destruct (is_Exception (exn_cls e)).
Qed.

Lemma extract_returns_new_record_witness :
  let st := Heap.State seattle_memory [] in
  let run := Heap.extract_required_fields (Heap.VRef 1) 0 st in
  seattle_memory !! 17%positive = None
  ∧ ∃ entries, Heap.objects run.2 !! 17%positive = Some (Heap.ODict entries)
               ∧ dom entries = list_to_set RECORD_KEYS.
Proof.
  cbv zeta.
  apply (extract_returns_new_record (Heap.VRef 1) 0 (Heap.State seattle_memory []) 17%positive).
  vm_compute. reflexivity.
Defined.
